(** * Forien's Quest Log: the quest data model and the tracker view

    A shallow embedding of [src/modules/model/Quest.js] (Quest and its nested
    Reward and Task classes), [src/modules/entities/reward.js] (the standalone
    Reward) and of [QuestTracker.prepareQuests], together with the properties
    the specification states about them.

    JavaScript values are loosely typed; the records handed to the
    constructors are modelled by [Value].  Exceptions are explicit: a
    computation that can throw returns a [Result]. *)

From stdpp Require Import gmap strings list.
From Stdlib Require Import ZArith Lia.

Set Warnings "-register-all".

Open Scope string_scope.
Open Scope list_scope.
Open Scope Z_scope.

(** ** JavaScript values *)

(** Numbers are the integer-valued ones; [NaN], infinities and fractions,
    functions and symbols are outside the model.  An object is the list of
    its own properties in insertion order, read with first match. *)
Inductive Value : Type :=
| VUndefined
| VNull
| VBool (b : bool)
| VNum (n : Z)
| VStr (s : string)
| VArr (items : list Value)
| VObj (fields : list (string * Value)).

(** [e1 || e2], [!e] and [if (e)] go through ToBoolean. *)
Definition truthy (v : Value) : bool :=
  match v with
  | VUndefined | VNull => false
  | VBool b => b
  | VNum n => negb (n =? 0)
  | VStr s => negb (String.eqb s "")
  | VArr _ | VObj _ => true
  end.

(** [a || b] *)
Definition js_or (a b : Value) : Value := if truthy a then a else b.

(** [!a] *)
Definition js_not (a : Value) : Value := VBool (negb (truthy a)).

(** [a === false], [a === true] *)
Definition is_false (v : Value) : bool :=
  match v with VBool false => true | _ => false end.
Definition is_true (v : Value) : bool :=
  match v with VBool true => true | _ => false end.

(** [a === undefined] *)
Definition is_undefined (v : Value) : bool :=
  match v with VUndefined => true | _ => false end.

(** What the code can throw: the TypeError of a property read on [null] or
    [undefined], and [new Error(game.i18n.localize(key))]. *)
Inductive Error : Type :=
| TypeError
| LocalizedError (key : string).

Inductive Result (A : Type) : Type :=
| Ok (a : A)
| Throw (e : Error).
Arguments Ok {A} a.
Arguments Throw {A} e.

Definition bind {A B} (r : Result A) (k : A -> Result B) : Result B :=
  match r with
  | Ok a => k a
  | Throw e => Throw e
  end.

Notation "'let*' x ':=' r 'in' k" := (bind r (fun x => k))
  (at level 10, x name, r at level 100, k at level 200).

Fixpoint assoc (k : string) (fields : list (string * Value)) : Value :=
  match fields with
  | [] => VUndefined
  | (k', v) :: rest => if String.eqb k k' then v else assoc k rest
  end.

(** [v.k] for the property names the sources read ([name], [type], [data],
    [hidden], [completed], [failed], [img], [length]).  On a primitive or
    an array only [length] of a string or array is defined among these. *)
Definition get (v : Value) (k : string) : Result Value :=
  match v with
  | VUndefined | VNull => Throw TypeError
  | VBool _ | VNum _ => Ok VUndefined
  | VStr s =>
      Ok (if String.eqb k "length" then VNum (Z.of_nat (String.length s))
          else VUndefined)
  | VArr items =>
      Ok (if String.eqb k "length" then VNum (Z.of_nat (length items))
          else VUndefined)
  | VObj fields => Ok (assoc k fields)
  end.

(** A parameter declared [data = {}]: only [undefined] takes the default. *)
Definition default_arg (v : Value) : Value :=
  match v with
  | VUndefined => VObj []
  | _ => v
  end.

(** [JSON.parse(JSON.stringify(v))] on the values above: a property whose
    value is [undefined] is dropped, an [undefined] array element becomes
    [null], everything else is copied. *)
Fixpoint json_clone (v : Value) : Value :=
  match v with
  | VArr items =>
      VArr (map (fun x => match x with
                          | VUndefined => VNull
                          | _ => json_clone x
                          end) items)
  | VObj fields =>
      VObj ((fix go (fs : list (string * Value)) : list (string * Value) :=
               match fs with
               | [] => []
               | (k, x) :: rest =>
                   match x with
                   | VUndefined => go rest
                   | _ => (k, json_clone x) :: go rest
                   end
               end) fields)
  | _ => v
  end.

(** A value [JSON.stringify] and [JSON.parse] give back as it is: no
    [undefined] anywhere below the top. *)
Fixpoint json_data (v : Value) : bool :=
  match v with
  | VUndefined => false
  | VArr items => forallb json_data items
  | VObj fields =>
      (fix go (fs : list (string * Value)) : bool :=
         match fs with
         | [] => true
         | (_, x) :: rest => json_data x && go rest
         end) fields
  | _ => true
  end.

(** ** Task (nested in Quest.js) *)

Module Task.

Record t : Type := mk {
  name : Value;
  completed : Value;
  failed : Value;
  hidden : Value
}.

(** [constructor(data = {})] *)
Definition new (data : Value) : Result t :=
  let data := default_arg data in
  let* n := get data "name" in
  let* c := get data "completed" in
  let* f := get data "failed" in
  let* h := get data "hidden" in
  Ok {| name := js_or n VNull;
        completed := js_or c (VBool false);
        failed := js_or f (VBool false);
        hidden := js_or h (VBool false) |}.

(** [get state()] *)
Definition state (x : t) : string :=
  if truthy (completed x) then "check-square"
  else if truthy (failed x) then "minus-square"
  else "square".

(** [toJSON()] *)
Definition toJSON (x : t) : Value :=
  json_clone (VObj [("name", name x); ("completed", completed x);
                    ("failed", failed x); ("hidden", hidden x);
                    ("state", VStr (state x))]).

(** [toggle()] *)
Definition toggle (x : t) : t :=
  if is_false (completed x) && is_false (failed x) then
    {| name := name x; completed := VBool true;
       failed := failed x; hidden := hidden x |}
  else if is_true (completed x) then
    {| name := name x; completed := VBool false;
       failed := VBool true; hidden := hidden x |}
  else
    {| name := name x; completed := completed x;
       failed := VBool false; hidden := hidden x |}.

(** [toggleVisible()]: the updated task and the value returned. *)
Definition toggleVisible (x : t) : t * Value :=
  let h := js_not (hidden x) in
  ({| name := name x; completed := completed x;
      failed := failed x; hidden := h |}, h).

(** The calls of the public interface that change a task. *)
Inductive op : Type := Toggle | ToggleVisible.

Definition step (x : t) (o : op) : t :=
  match o with
  | Toggle => toggle x
  | ToggleVisible => fst (toggleVisible x)
  end.

Definition run (x : t) (ops : list op) : t := fold_left step ops x.

(** The two flags are both [true]. *)
Definition both_true (x : t) : Prop :=
  completed x = VBool true /\ failed x = VBool true.

(** The two flags are both truthy (what [state] looks at). *)
Definition both_truthy (x : t) : bool :=
  truthy (completed x) && truthy (failed x).

Definition is_toggle (o : op) : bool :=
  match o with Toggle => true | ToggleVisible => false end.

End Task.

(** ** Reward, standalone (entities/reward.js) *)

Module RewardEntity.

Record t : Type := mk {
  _type : Value;
  _data : Value;
  _hidden : Value
}.

(** [constructor(data = {})] *)
Definition new (data : Value) : Result t :=
  let data := default_arg data in
  let* ty := get data "type" in
  let* d := get data "data" in
  let* h := get data "hidden" in
  Ok {| _type := js_or ty VNull;
        _data := js_or d (VObj []);
        _hidden := js_or h (VBool false) |}.

(** [get isValid()] *)
Definition isValid (r : t) : bool :=
  match _type r with VNull => false | _ => true end.

Definition err_type : Error :=
  LocalizedError "ForienQuestLog.Api.reward.create.type".
Definition err_data : Error :=
  LocalizedError "ForienQuestLog.Api.reward.create.data".

(** [static create(data = {})] *)
Definition create (data : Value) : Result t :=
  let data := default_arg data in
  let* ty := get data "type" in
  if is_undefined ty then Throw err_type else
  let* d := get data "data" in
  if is_undefined d then Throw err_data else
  let* n := get d "name" in
  if is_undefined n then Throw err_data else
  let* i := get d "img" in
  if is_undefined i then Throw err_data else
  new data.

(** [toJSON()] *)
Definition toJSON (r : t) : Value :=
  VObj [("type", _type r); ("data", _data r); ("hidden", _hidden r)].

(** [async toggleVisible()]: the updated reward and the value the
    returned promise resolves to. *)
Definition toggleVisible (r : t) : t * Value :=
  let h := js_not (_hidden r) in
  ({| _type := _type r; _data := _data r; _hidden := h |}, h).

End RewardEntity.

(** ** Reward, nested in Quest.js *)

Module Reward.

Record t : Type := mk {
  type : Value;
  data : Value;
  hidden : Value
}.

(** [constructor(data = {})] *)
Definition new (data : Value) : Result t :=
  let data := default_arg data in
  let* ty := get data "type" in
  let* d := get data "data" in
  let* h := get data "hidden" in
  Ok {| type := js_or ty VNull;
        data := js_or d (VObj []);
        hidden := js_or h (VBool false) |}.

(** [toJSON()] *)
Definition toJSON (r : t) : Value :=
  json_clone (VObj [("type", type r); ("data", data r);
                    ("hidden", hidden r)]).

(** [toggleVisible()] *)
Definition toggleVisible (r : t) : t * Value :=
  let h := js_not (hidden r) in
  ({| type := type r; data := data r; hidden := h |}, h).

End Reward.



(** ** Arrays *)

(** An array element is [None] where the array holds [undefined]. *)
Abbreviation array A := (list (option A)) (only parsing).

(** [arr[i]] for an integer number [i]: [None] is [undefined]. *)
Definition at_index {A} (arr : array A) (i : Z) : option A :=
  if i <? 0 then None else mjoin (arr !! Z.to_nat i).

(** The start position [Array.prototype.splice] computes. *)
Definition splice_start (len : nat) (start : Z) : nat :=
  if start <? 0 then Z.to_nat (Z.max (Z.of_nat len + start) 0)
  else Z.to_nat (Z.min start (Z.of_nat len)).

(** [arr.splice(start, deleteCount, ...items)]: the removed elements and
    the array afterwards. *)
Definition splice {A} (arr : list A) (start deleteCount : Z)
    (items : list A) : list A * list A :=
  let s := splice_start (length arr) start in
  let d := Z.to_nat (Z.min (Z.max deleteCount 0)
                           (Z.of_nat (length arr) - Z.of_nat s)) in
  (take d (drop s arr), take s arr ++ items ++ drop (s + d)%nat arr).

(** [if (targetIdx)] for an omitted argument or an integer number. *)
Definition idx_truthy (targetIdx : option Z) : bool :=
  match targetIdx with
  | None => false
  | Some n => negb (n =? 0)
  end.

(** The body shared by [sortRewards] and [sortTasks]:
    [entry = arr.splice(index, 1)[0]], then [arr.splice(targetIdx, 0, entry)]
    or [arr.push(entry)]. *)
Definition sort_entries {A} (arr : array A) (index : Z)
    (targetIdx : option Z) : array A :=
  let '(removed, arr1) := splice arr index 1 [] in
  let entry := mjoin (head removed) in
  if idx_truthy targetIdx
  then snd (splice arr1 (default 0 targetIdx) 0 [entry])
  else arr1 ++ [entry].

(** ** Quest (model/Quest.js) *)

Module Quest.

(** A quest as [initData] leaves it.  Identifiers are strings, [None] is
    [null]; [entry] names the journal entry the quest holds. *)
Record t : Type := mk {
  _id : option string;
  _name : Value;
  giver : Value;
  status : Value;
  description : Value;
  gmnotes : Value;
  image : Value;
  giverName : Value;
  giverImgPos : Value;
  splash : Value;
  splashPos : Value;
  parent : option string;
  subquests : list (option string);
  tasks : array Task.t;
  rewards : array Reward.t;
  entry : option string
}.

Definition set_parent (p : option string) (q : t) : t :=
  mk (_id q) (_name q) (giver q) (status q) (description q) (gmnotes q)
     (image q) (giverName q) (giverImgPos q) (splash q) (splashPos q)
     p (subquests q) (tasks q) (rewards q) (entry q).

Definition set_subquests (s : list (option string)) (q : t) : t :=
  mk (_id q) (_name q) (giver q) (status q) (description q) (gmnotes q)
     (image q) (giverName q) (giverImgPos q) (splash q) (splashPos q)
     (parent q) s (tasks q) (rewards q) (entry q).

Definition set_tasks (ts : array Task.t) (q : t) : t :=
  mk (_id q) (_name q) (giver q) (status q) (description q) (gmnotes q)
     (image q) (giverName q) (giverImgPos q) (splash q) (splashPos q)
     (parent q) (subquests q) ts (rewards q) (entry q).

Definition set_rewards (rs : array Reward.t) (q : t) : t :=
  mk (_id q) (_name q) (giver q) (status q) (description q) (gmnotes q)
     (image q) (giverName q) (giverImgPos q) (splash q) (splashPos q)
     (parent q) (subquests q) (tasks q) rs (entry q).

(** [addReward(data = {})] *)
Definition addReward (this : t) (data : Value) : Result t :=
  let* reward := Reward.new (default_arg data) in
  match Reward.type reward with
  | VNull => Ok this
  | _ => Ok (set_rewards (rewards this ++ [Some reward]) this)
  end.

(** [addSubquest(questId)] *)
Definition addSubquest (questId : option string) (this : t) : t :=
  set_subquests (subquests this ++ [questId]) this.

(** [addTask(data = {})] *)
Definition addTask (this : t) (data : Value) : Result t :=
  let* task := Task.new (default_arg data) in
  let* len := get (Task.name task) "length" in
  if truthy len
  then Ok (set_tasks (tasks this ++ [Some task]) this)
  else Ok this.

(** [removeSubquest(questId)] *)
Definition removeSubquest (questId : option string) (this : t) : t :=
  set_subquests
    (filter (fun id => id <> questId) (subquests this)) this.

(** [sortRewards(index, targetIdx)] *)
Definition sortRewards (this : t) (index : Z) (targetIdx : option Z) : t :=
  set_rewards (sort_entries (rewards this) index targetIdx) this.

(** [sortTasks(index, targetIdx)] *)
Definition sortTasks (this : t) (index : Z) (targetIdx : option Z) : t :=
  set_tasks (sort_entries (tasks this) index targetIdx) this.

(** [toggleReward(index)], for the [{number}] the source declares *)
Definition toggleReward (this : t) (index : Z) : t :=
  match at_index (rewards this) index with
  | None => this
  | Some r =>
      set_rewards
        (<[Z.to_nat index := Some (fst (Reward.toggleVisible r))]>
           (rewards this)) this
  end.

(** [toggleTask(index)] *)
Definition toggleTask (this : t) (index : Z) : t :=
  match at_index (tasks this) index with
  | None => this
  | Some x =>
      set_tasks
        (<[Z.to_nat index := Some (fst (Task.toggleVisible x))]>
           (tasks this)) this
  end.

(** What [toJSON()] returns. *)
Record json : Type := mk_json {
  j_giver : Value;
  j_name : Value;
  j_status : Value;
  j_description : Value;
  j_gmnotes : Value;
  j_image : Value;
  j_giverName : Value;
  j_giverImgPos : Value;
  j_splashPos : Value;
  j_splash : Value;
  j_parent : option string;
  j_subquests : list (option string);
  j_tasks : array Task.t;
  j_rewards : array Reward.t
}.

(** [toJSON()] *)
Definition toJSON (this : t) : json :=
  {| j_giver := giver this; j_name := _name this;
     j_status := status this; j_description := description this;
     j_gmnotes := gmnotes this; j_image := image this;
     j_giverName := giverName this; j_giverImgPos := giverImgPos this;
     j_splashPos := splashPos this; j_splash := splash this;
     j_parent := parent this; j_subquests := subquests this;
     j_tasks := tasks this; j_rewards := rewards this |}.

(** *** The host *)

(** A journal entry: whether [canUserModify(game.user, 'update')] holds,
    its name, and the quest stored under the module's flag. *)
Record Entry : Type := mk_entry {
  canUpdate : bool;
  e_name : Value;
  e_json : option json
}.

(** The calls that write to storage. *)
Inductive HostCall : Type :=
| EntryUpdate (key : string)
| EntryDelete (key : string).

(** [game.journal], the quests [Fetch.quest] resolves, [game.i18n] and
    the storage calls made so far (latest last).  The quests of [index]
    are shared objects: a change made through one lookup is seen by the
    next. *)
Record World : Type := mk_world {
  journal : gmap string Entry;
  index : gmap string t;
  localize : string -> string;
  calls : list HostCall
}.

Definition set_index (i : gmap string t) (w : World) : World :=
  mk_world (journal w) i (localize w) (calls w).

(** Modelled from the spec: [Fetch.quest] ([control/Fetch.js] is not among
    the sources).  The specification has parent and subquest links as
    plain identifiers resolved through the quest index at use time, the
    index mapping an identifier to its quest record; the lookup gives a
    reference to that record, named here by its key, and nothing for
    [null] or an unknown identifier. *)
Definition Fetch_quest (w : World) (questId : option string)
  : option string :=
  match questId with
  | None => None
  | Some k => match index w !! k with
              | Some _ => Some k
              | None => None
              end
  end.

(** A method call that updates the quest behind a reference. *)
Definition modify (ref : string) (f : t -> t) (w : World) : World :=
  set_index (alter f ref (index w)) w.

(** [quest._id] through a reference. *)
Definition id_at (w : World) (ref : string) : option string :=
  match index w !! ref with
  | Some q => _id q
  | None => None
  end.

Definition id_value (id : option string) : Value :=
  match id with
  | Some s => VStr s
  | None => VNull
  end.

(** [async save()]: the value the promise resolves to and the world
    afterwards. *)
Definition save (this : t) (w : World) : Value * World :=
  let entry :=
    match _id this with
    | Some k => match journal w !! k with
                | Some e => Some (k, e)
                | None => None
                end
    | None => None
    end in
  match entry with
  | None => (VUndefined, w)
  | Some (k, e) =>
      if negb (canUpdate e) then (VUndefined, w)
      else
        let name :=
          match _name this with
          | VStr s =>
              if (0 <? Z.of_nat (String.length s)) then VStr s
              else VStr (localize w "ForienQuestLog.NewQuest")
          | _ => VStr (localize w "ForienQuestLog.NewQuest")
          end in
        let e' := {| canUpdate := canUpdate e; e_name := name;
                     e_json := Some (toJSON this) |} in
        (id_value (_id this),
         mk_world (<[k := e']> (journal w)) (index w) (localize w)
                  (calls w ++ [EntryUpdate k]))
  end.

(** [await quest.save()] on a reference. *)
Definition save_at (ref : string) (w : World) : World :=
  match index w !! ref with
  | Some q => snd (save q w)
  | None => w
  end.

(** What [delete()] returns. *)
Record Deleted : Type := mk_deleted {
  deleteID : option string;
  savedIDs : list (option string)
}.

(** One turn of the loop over [this.subquests]. *)
Definition reparent (parentQuest : option string)
    (parentId : option string)
    (st : World * list (option string)) (childId : option string)
  : World * list (option string) :=
  let '(w, saved) := st in
  match Fetch_quest w childId with
  | None => (w, saved)
  | Some childQuest =>
      let w := modify childQuest (set_parent parentId) w in
      let w := save_at childQuest w in
      let saved := saved ++ [id_at w childQuest] in
      let w := match parentQuest with
               | Some p => modify p (addSubquest (id_at w childQuest)) w
               | None => w
               end in
      (w, saved)
  end.

(** [async delete()], for a quest [this] that is not itself one of the
    objects the lookups of this call return. *)
Definition delete (this : t) (w : World) : Deleted * World :=
  let parentQuest := Fetch_quest w (parent this) in
  let parentId := match parentQuest with
                  | Some p => id_at w p
                  | None => None
                  end in
  let w := match parentQuest with
           | Some p => modify p (removeSubquest (_id this)) w
           | None => w
           end in
  let '(w, saved) :=
    fold_left (reparent parentQuest parentId) (subquests this) (w, []) in
  let '(w, saved) :=
    match parentQuest with
    | Some p => (save_at p w, saved ++ [id_at w p])
    | None => (w, saved)
    end in
  let w := match entry this with
           | Some k =>
               mk_world (base.delete k (journal w)) (index w) (localize w)
                        (calls w ++ [EntryDelete k])
           | None => w
           end in
  ({| deleteID := _id this; savedIDs := saved |}, w).

(** *** The other methods *)

Definition set_status (v : Value) (q : t) : t :=
  mk (_id q) (_name q) (giver q) v (description q) (gmnotes q)
     (image q) (giverName q) (giverImgPos q) (splash q) (splashPos q)
     (parent q) (subquests q) (tasks q) (rewards q) (entry q).

Definition set_image (v : Value) (q : t) : t :=
  mk (_id q) (_name q) (giver q) (status q) (description q) (gmnotes q)
     v (giverName q) (giverImgPos q) (splash q) (splashPos q)
     (parent q) (subquests q) (tasks q) (rewards q) (entry q).

(** The value [set name(value)] stores in [_name]. *)
Definition name_of (w : World) (value : Value) : Value :=
  match value with
  | VStr s =>
      if (0 <? Z.of_nat (String.length s)) then VStr s
      else VStr (localize w "ForienQuestLog.NewQuest")
  | _ => VStr (localize w "ForienQuestLog.NewQuest")
  end.

(** [set name(value)] *)
Definition set_name (w : World) (value : Value) (q : t) : t :=
  mk (_id q) (name_of w value) (giver q) (status q) (description q)
     (gmnotes q) (image q) (giverName q) (giverImgPos q) (splash q)
     (splashPos q) (parent q) (subquests q) (tasks q) (rewards q) (entry q).

(** [removeReward(index)] *)
Definition removeReward (this : t) (index : Z) : t :=
  match at_index (rewards this) index with
  | None => this
  | Some _ => set_rewards (snd (splice (rewards this) index 1 [])) this
  end.

(** [removeTask(index)] *)
Definition removeTask (this : t) (index : Z) : t :=
  match at_index (tasks this) index with
  | None => this
  | Some _ => set_tasks (snd (splice (tasks this) index 1 [])) this
  end.

(** [toggleImage()] *)
Definition toggleImage (this : t) : t :=
  set_image
    (match image this with
     | VStr s => if String.eqb s "actor" then VStr "token" else VStr "actor"
     | _ => VStr "actor"
     end) this.

(** [async move(target)]: the value the promise resolves to, the quest
    and the world afterwards.  The entry the quest holds is updated
    directly, with the module's flag alone. *)
Definition move (this : t) (target : Value) (w : World)
  : Value * t * World :=
  match entry this with
  | None => (VUndefined, this, w)
  | Some k =>
      let this' := set_status target this in
      let stored (e : Entry) :=
        {| canUpdate := canUpdate e; e_name := e_name e;
           e_json := Some (toJSON this') |} in
      (id_value (_id this'), this',
       mk_world (alter stored k (journal w)) (index w) (localize w)
                (calls w ++ [EntryUpdate k]))
  end.

(** [arr.map((x) => new C(x))]: the elements are built in order, and the
    first constructor that throws ends the call. *)
Fixpoint map_new {A} (new : Value -> Result A) (items : list Value)
  : Result (array A) :=
  match items with
  | [] => Ok []
  | x :: rest =>
      let* a := new x in
      let* built := map_new new rest in
      Ok (Some a :: built)
  end.

(** The fields [initData] assigns, as it leaves them: [parent] and
    [subquests] are whatever the record holds. *)
Record fields : Type := mk_fields {
  f_giver : Value;
  f_name : Value;
  f_status : Value;
  f_description : Value;
  f_gmnotes : Value;
  f_image : Value;
  f_giverName : Value;
  f_giverImgPos : Value;
  f_splash : Value;
  f_splashPos : Value;
  f_parent : Value;
  f_subquests : Value;
  f_tasks : array Task.t;
  f_rewards : array Reward.t
}.

(** [initData(data)] *)
Definition initData (w : World) (data : Value) : Result fields :=
  let label := VStr (localize w "ForienQuestLog.NewQuest") in
  let* giver := get data "giver" in
  let* name := get data "name" in
  let* status := get data "status" in
  let* description := get data "description" in
  let* gmnotes := get data "gmnotes" in
  let* image := get data "image" in
  let* giverName := get data "giverName" in
  let* giverImgPos := get data "giverImgPos" in
  let* splash := get data "splash" in
  let* splashPos := get data "splashPos" in
  let* parent := get data "parent" in
  let* subquests := get data "subquests" in
  let* tasks := get data "tasks" in
  let* ts := match tasks with
             | VArr items => map_new Task.new items
             | _ => Ok []
             end in
  let* rewards := get data "rewards" in
  let* rs := match rewards with
             | VArr items => map_new Reward.new items
             | _ => Ok []
             end in
  Ok {| f_giver := js_or giver VNull;
        f_name := name_of w (js_or name label);
        f_status := js_or status (VStr "hidden");
        f_description := js_or description (VStr "");
        f_gmnotes := js_or gmnotes (VStr "");
        f_image := js_or image (VStr "actor");
        f_giverName := js_or giverName (VStr "actor");
        f_giverImgPos := js_or giverImgPos (VStr "center");
        f_splash := js_or splash (VStr "");
        f_splashPos := js_or splashPos (VStr "center");
        f_parent := js_or parent VNull;
        f_subquests := js_or subquests (VArr []);
        f_tasks := ts;
        f_rewards := rs |}.

End Quest.

(** ** QuestTracker.prepareQuests *)

Module QuestTracker.

(** [entry.enrich], the fields the tracker reads. *)
Record Enrich : Type := mk_enrich {
  id : string;
  giver : Value;
  name : Value;
  isHidden : Value;
  isInactive : Value;
  isPersonal : Value;
  personalActors : Value;
  hasObjectives : Value;
  data_tasks : Value;
  data_subquest : Value
}.

Record QuestEntry : Type := mk_entry {
  enrich : Enrich;
  isOwner : bool
}.

(** What the method reads from its surroundings: [game.user.isGM],
    [Utils.isTrustedPlayerEdit()], [sessionStorage], the key prefix
    [sessionConstants.trackerFolderState], and the collection
    [QuestDB.sortCollect({ status: questStatus.active })] would give. *)
Record Env : Type := mk_env {
  isGM : bool;
  isTrustedPlayerEdit : bool;
  sessionStorage : gmap string string;
  trackerFolderState : string;
  activeQuests : list QuestEntry
}.

(** Queries sent to the quest database. *)
Inductive Query : Type := SortCollectActive.

(** One entry of the collection returned. *)
Record View : Type := mk_view {
  v_id : string;
  v_canEdit : bool;
  v_playerEdit : bool;
  v_source : Value;
  v_name : Value;
  v_isGM : bool;
  v_isHidden : Value;
  v_isInactive : Value;
  v_isPersonal : Value;
  v_personalActors : Value;
  v_hasObjectives : Value;
  v_subquests : Value;
  v_tasks : Value
}.

(** The function given to [transform]. *)
Definition view_of (env : Env) (entry : QuestEntry) : View :=
  let q := enrich entry in
  let collapsed :=
    match sessionStorage env !! (trackerFolderState env +:+ id q) with
    | Some s => String.eqb s "false"
    | None => false
    end in
  let tasks := if collapsed then data_tasks q else VArr [] in
  let subquests := if collapsed then data_subquest q else VArr [] in
  {| v_id := id q;
     v_canEdit := isGM env || (isOwner entry && isTrustedPlayerEdit env);
     v_playerEdit := isOwner entry;
     v_source := giver q;
     v_name := name q;
     v_isGM := isGM env;
     v_isHidden := isHidden q;
     v_isInactive := isInactive q;
     v_isPersonal := isPersonal q;
     v_personalActors := personalActors q;
     v_hasObjectives := hasObjectives q;
     v_subquests := subquests;
     v_tasks := tasks |}.

(** [async prepareQuests(showOnlyPrimary, primaryQuest)]: the collection
    and the database queries made. *)
Definition prepareQuests (env : Env) (showOnlyPrimary : bool)
    (primaryQuest : option QuestEntry) : list View * list Query :=
  let '(questEntries, queries) :=
    if showOnlyPrimary
    then (match primaryQuest with
          | Some p => [p]
          | None => []
          end, [])
    else (activeQuests env, [SortCollectActive]) in
  (map (view_of env) questEntries, queries).

(** [_handleQuestClick(event)], for the quest identifier the event carries
    and the entry [QuestDB.getQuestEntry] gives for it: the surroundings
    afterwards and whether [render()] was called. *)
Definition handleQuestClick (env : Env) (questId : string)
    (questEntry : option QuestEntry) : Env * bool :=
  match questEntry with
  | None => (env, false)
  | Some entry =>
      if truthy (hasObjectives (enrich entry)) then
        let key := trackerFolderState env +:+ questId in
        let collapsed :=
          match sessionStorage env !! key with
          | Some s => negb (String.eqb s "false")
          | None => true
          end in
        (mk_env (isGM env) (isTrustedPlayerEdit env)
                (<[key := if negb collapsed then "true" else "false"]>
                   (sessionStorage env))
                (trackerFolderState env) (activeQuests env), true)
      else (env, false)
  end.

(** [sessionStorage.getItem(sessionConstants.trackerShowPrimary) === 'true'],
    with the key as a parameter. *)
Definition showPrimary (storage : gmap string string) (key : string)
  : bool :=
  match storage !! key with
  | Some s => String.eqb s "true"
  | None => false
  end.

(** The button [_getHeaderButtons] puts first. *)
Record Button : Type := mk_button {
  b_title : string;
  b_class : string;
  b_icon : string
}.

Definition primaryButton (storage : gmap string string) (key : string)
  : Button :=
  let primaryState := showPrimary storage key in
  {| b_title := if primaryState
                then "ForienQuestLog.QuestTracker.Tooltips.PrimaryQuestUnshow"
                else "ForienQuestLog.QuestTracker.Tooltips.PrimaryQuestShow";
     b_class := "show-primary";
     b_icon := if primaryState then "fas fa-star" else "far fa-star" |}.

(** The click handler of the show-primary button: the storage afterwards,
    and the class and the title (the key handed to [localize]) it sets on
    the icon. *)
Definition clickShowPrimary (storage : gmap string string) (key : string)
  : gmap string string * string * string :=
  let newPrimary := negb (showPrimary storage key) in
  (<[key := if newPrimary then "true" else "false"]> storage,
   if newPrimary then "fas fa-star" else "far fa-star",
   if newPrimary
   then "ForienQuestLog.QuestTracker.Tooltips.PrimaryQuestShow"
   else "ForienQuestLog.QuestTracker.Tooltips.PrimaryQuestUnshow").







End QuestTracker.

(** ** QuestFolder (entities/quest-folder.js) *)

Module QuestFolder.

Definition s_QUEST_DIR_NAME : string := "_fql_quests".

(** A folder of the journal directory. *)
Record Folder : Type := mk_folder {
  name : string;
  type : string;
  parent : option string
}.

(** [game.journal.directory.folders.find((f) => f.name === s_QUEST_DIR_NAME)] *)
Definition get (folders : list Folder) : option Folder :=
  List.find (fun f => String.eqb (name f) s_QUEST_DIR_NAME) folders.

(** [static folderExists()] *)
Definition folderExists (folders : list Folder) : bool :=
  match get folders with
  | Some _ => true
  | None => false
  end.

(** [static async initializeJournals()]: the folders of the directory
    afterwards, [Folder.create] adding the folder it is given at the end. *)
Definition initializeJournals (folders : list Folder) : list Folder :=
  if negb (folderExists folders)
  then folders ++ [mk_folder s_QUEST_DIR_NAME "JournalEntry" None]
  else folders.

End QuestFolder.

(** ** Statements *)


(** The property [k] of [v] reads as [undefined]. *)
Definition missing (v : Value) (k : string) : Prop :=
  get v k = Ok VUndefined.

(** One of the fields [Reward.create] asks for is absent from the record:
    [type], [data], or [name] or [img] of [data]. *)
Definition required_missing (data : Value) : Prop :=
  missing data "type" \/ missing data "data" \/
  exists d : Value,
    get data "data" = Ok d /\ (missing d "name" \/ missing d "img").

(** The outcome is the error made from a localized message. *)
Definition descriptive {A} (r : Result A) : Prop :=
  exists key : string, r = Throw (LocalizedError key).

(** [Array.isArray(v) ? v : []], as a list of elements. *)
Definition items_of (v : Value) : list Value :=
  match v with
  | VArr items => items
  | _ => []
  end.

(** Two quests that differ at most in [parent] and [subquests]. *)
Definition same_but_links (q q' : Quest.t) : Prop :=
  Quest.set_parent None (Quest.set_subquests [] q)
  = Quest.set_parent None (Quest.set_subquests [] q').

(** Two indexes with the same keys, whose quests differ at most in
    [parent] and [subquests]. *)
Definition index_same_but_links (i i' : gmap string Quest.t) : Prop :=
  forall k : string, option_Forall2 same_but_links (i !! k) (i' !! k).

(** * Properties *)

(** ** Task *)

Section TaskToggle.

Import Task.

Lemma toggle_not_both_truthy (x : t) : both_truthy (toggle x) = false.
Proof.
  unfold toggle, both_truthy.
  destruct (is_false (completed x) && is_false (failed x)) eqn:E.
  - apply andb_true_iff in E as [_ E].
    destruct (failed x) as [| |[]| | | |]; try discriminate E.
    simpl. now rewrite ?andb_false_r.
  - destruct (is_true (completed x)); simpl; now rewrite ?andb_false_r.
Qed.

Lemma both_true_truthy (x : t) : both_true x -> both_truthy x = true.
Proof. intros [Hc Hf]. unfold both_truthy. now rewrite Hc, Hf. Qed.

Lemma toggle_not_both_true (x : t) : ~ both_true (toggle x).
Proof.
  intros H. apply both_true_truthy in H.
  rewrite toggle_not_both_truthy in H. discriminate.
Qed.

Lemma toggleVisible_flags (x : t) :
  completed (fst (toggleVisible x)) = completed x /\
  failed (fst (toggleVisible x)) = failed x /\
  name (fst (toggleVisible x)) = name x.
Proof. now unfold toggleVisible. Qed.

Lemma run_cons (x : t) (o : op) (ops : list op) :
  run x (o :: ops) = run (step x o) ops.
Proof. reflexivity. Qed.

Lemma run_not_both_true (ops : list op) :
  forall x : t,
    ~ both_true x \/ existsb is_toggle ops = true ->
    ~ both_true (run x ops).
Proof.
  induction ops as [|o ops IH]; intros x H.
  - destruct H as [H | H]; [exact H | discriminate H].
  - rewrite run_cons. apply IH. destruct o; simpl in *.
    + left. apply toggle_not_both_true.
    + destruct H as [H | H]; [left | right; exact H].
      unfold both_true in *. now simpl.
Qed.

End TaskToggle.

(** C3. A task that is neither completed nor failed goes through
    unchecked, completed, failed and back: the first [toggle()] sets
    [completed] alone, the second sets [failed] alone, and the third gives
    back exactly the task it started from. *)
Theorem Task_toggle_cycle (n h : Value) :
  let unchecked := Task.mk n (VBool false) (VBool false) h in
  Task.toggle unchecked = Task.mk n (VBool true) (VBool false) h /\
  Task.toggle (Task.toggle unchecked)
    = Task.mk n (VBool false) (VBool true) h /\
  Task.toggle (Task.toggle (Task.toggle unchecked)) = unchecked /\
  Task.state unchecked = "square" /\
  Task.state (Task.toggle unchecked) = "check-square" /\
  Task.state (Task.toggle (Task.toggle unchecked)) = "minus-square".
Proof. cbv. repeat split. Qed.

(** C4, as the code has it.  The constructor copies whatever the record
    holds, so the invariant is not established by construction; [toggle()]
    establishes it and [toggleVisible()] keeps it: after any sequence of
    calls on a task built from a record, [completed] and [failed] are not
    both true provided they were not both true in the task as constructed
    or the sequence contains a [toggle()]. *)
Theorem Task_flags_exclusive (data : Value) (x : Task.t)
    (ops : list Task.op) :
  Task.new data = Ok x ->
  ~ Task.both_true x \/ existsb Task.is_toggle ops = true ->
  ~ Task.both_true (Task.run x ops).
Proof. intros _ H. now apply run_not_both_true. Qed.

Lemma Task_flags_exclusive_witness :
  let data := VObj [("name", VStr "Find the amulet");
                    ("completed", VBool true); ("failed", VBool true)] in
  let x := Task.mk (VStr "Find the amulet") (VBool true) (VBool true)
                   (VBool false) in
  Task.new data = Ok x /\
  ~ Task.both_true (Task.run x [Task.ToggleVisible; Task.Toggle]).
Proof.
  split; [reflexivity |].
  apply (Task_flags_exclusive
           (VObj [("name", VStr "Find the amulet");
                  ("completed", VBool true); ("failed", VBool true)])).
  - reflexivity.
  - right. reflexivity.
Defined.

(** C4 as stated fails: a record with both flags set gives a task with
    both flags true, and [toggleVisible()] leaves it so. *)
Lemma Task_both_flags_constructed :
  let data := VObj [("name", VStr "Find the amulet");
                    ("completed", VBool true); ("failed", VBool true)] in
  exists x : Task.t,
    Task.new data = Ok x /\
    Task.both_true (Task.run x []) /\
    Task.both_true (Task.run x [Task.ToggleVisible]).
Proof.
  eexists. split; [reflexivity |]. split; split; reflexivity.
Qed.

(** ** Quest.addTask *)

Lemma Task_new_record (fields : list (string * Value)) :
  Task.new (VObj fields)
  = Ok (Task.mk (js_or (assoc "name" fields) VNull)
                (js_or (assoc "completed" fields) (VBool false))
                (js_or (assoc "failed" fields) (VBool false))
                (js_or (assoc "hidden" fields) (VBool false))).
Proof. reflexivity. Qed.

(** A record without a usable name: the constructor stores [null], and
    reading [length] of it throws before anything is pushed. *)
Lemma addTask_nameless_throws (this : Quest.t)
    (fields : list (string * Value)) :
  assoc "name" fields = VUndefined \/ assoc "name" fields = VStr "" ->
  Quest.addTask this (VObj fields) = Throw TypeError.
Proof.
  intros H. unfold Quest.addTask. simpl default_arg.
  rewrite Task_new_record. simpl.
  destruct H as [-> | ->]; reflexivity.
Qed.

(** A record with a non-empty string name: one task is pushed. *)
Lemma addTask_named_appends (this : Quest.t)
    (fields : list (string * Value)) (s : string) :
  assoc "name" fields = VStr s -> s <> "" ->
  exists task : Task.t,
    Task.new (VObj fields) = Ok task /\
    Task.name task = VStr s /\
    Quest.addTask this (VObj fields)
      = Ok (Quest.set_tasks (Quest.tasks this ++ [Some task]) this) /\
    length (Quest.tasks (Quest.set_tasks (Quest.tasks this ++ [Some task])
                                         this))
      = S (length (Quest.tasks this)).
Proof.
  intros Hn Hs. eexists. split; [apply Task_new_record |].
  unfold Quest.addTask. simpl default_arg. rewrite Task_new_record.
  simpl. rewrite Hn.
  destruct s as [|a s]; [contradiction |]. simpl.
  repeat split. rewrite length_app. simpl. lia.
Qed.

(** C1, at the inputs where the code departs from it: for a record with
    an empty name, with no name, and for an omitted argument, [addTask]
    throws a TypeError instead of returning quietly. *)
Theorem addTask_empty_name_throws (this : Quest.t) :
  Quest.addTask this (VObj [("name", VStr "")]) = Throw TypeError /\
  Quest.addTask this (VObj []) = Throw TypeError /\
  Quest.addTask this VUndefined = Throw TypeError.
Proof. repeat split. Qed.

(** The other half of C1 holds: [addTask({name: 'Find the amulet'})]
    makes the sequence one longer. *)
Lemma addTask_named_example (this : Quest.t) :
  exists q : Quest.t,
    Quest.addTask this (VObj [("name", VStr "Find the amulet")]) = Ok q /\
    length (Quest.tasks q) = S (length (Quest.tasks this)).
Proof.
  destruct (addTask_named_appends this
              [("name", VStr "Find the amulet")] "Find the amulet")
    as (task & _ & _ & H & Hl); [reflexivity | discriminate |].
  eexists. split; [exact H | exact Hl].
Qed.

(** For comparison, the sibling [addReward] tests [type !== null] and
    returns quietly on a record it does not keep. *)
Lemma addReward_null_type_noop (this : Quest.t) :
  Quest.addReward this (VObj [("type", VNull)]) = Ok this /\
  Quest.addReward this (VObj []) = Ok this.
Proof. split; reflexivity. Qed.

(** ** Quest.toggleTask and Quest.toggleReward *)

Lemma at_index_Some {A} (arr : array A) (i : Z) (x : A) :
  at_index arr i = Some x ->
  0 <= i /\ arr !! Z.to_nat i = Some (Some x).
Proof.
  unfold at_index. destruct (i <? 0) eqn:E; [discriminate |].
  apply Z.ltb_ge in E. intros H. split; [exact E |].
  destruct (arr !! Z.to_nat i) as [[y|]|]; simpl in H;
    try discriminate H. now inversion H.
Qed.

(** C10. [toggleTask(index)] and [toggleReward(index)] are total (they
    have no exception to raise); with nothing at [index] the quest is
    returned as it was; with an element there, the quest differs only in
    that slot of that sequence, and the element only in [hidden], which is
    negated. *)
Theorem toggle_at_index (this : Quest.t) (index : Z) :
  (at_index (Quest.tasks this) index = None ->
   Quest.toggleTask this index = this) /\
  (at_index (Quest.rewards this) index = None ->
   Quest.toggleReward this index = this) /\
  (forall x : Task.t,
     at_index (Quest.tasks this) index = Some x ->
     let x' := Task.mk (Task.name x) (Task.completed x) (Task.failed x)
                       (js_not (Task.hidden x)) in
     Quest.toggleTask this index
       = Quest.set_tasks (<[Z.to_nat index := Some x']> (Quest.tasks this))
                         this /\
     at_index (Quest.tasks (Quest.toggleTask this index)) index = Some x' /\
     (forall j : Z, j <> index ->
        at_index (Quest.tasks (Quest.toggleTask this index)) j
        = at_index (Quest.tasks this) j) /\
     length (Quest.tasks (Quest.toggleTask this index))
       = length (Quest.tasks this) /\
     Quest.rewards (Quest.toggleTask this index) = Quest.rewards this) /\
  (forall r : Reward.t,
     at_index (Quest.rewards this) index = Some r ->
     let r' := Reward.mk (Reward.type r) (Reward.data r)
                         (js_not (Reward.hidden r)) in
     Quest.toggleReward this index
       = Quest.set_rewards
           (<[Z.to_nat index := Some r']> (Quest.rewards this)) this /\
     at_index (Quest.rewards (Quest.toggleReward this index)) index
       = Some r' /\
     (forall j : Z, j <> index ->
        at_index (Quest.rewards (Quest.toggleReward this index)) j
        = at_index (Quest.rewards this) j) /\
     length (Quest.rewards (Quest.toggleReward this index))
       = length (Quest.rewards this) /\
     Quest.tasks (Quest.toggleReward this index) = Quest.tasks this).
Proof.
  split; [| split; [| split]].
  - intros H. unfold Quest.toggleTask. now rewrite H.
  - intros H. unfold Quest.toggleReward. now rewrite H.
  - intros x H x'. unfold Quest.toggleTask. rewrite H. simpl.
    apply at_index_Some in H as [Hi Hx].
    assert (Hlt : (Z.to_nat index < length (Quest.tasks this))%nat)
      by (eapply lookup_lt_Some; exact Hx).
    repeat split.
    + unfold at_index. destruct (index <? 0) eqn:E; [lia |].
      now rewrite list_lookup_insert_eq.
    + intros j Hj. unfold at_index. destruct (j <? 0) eqn:E; [reflexivity |].
      rewrite list_lookup_insert_ne; [reflexivity | lia].
    + apply length_insert.
  - intros r H r'. unfold Quest.toggleReward. rewrite H. simpl.
    apply at_index_Some in H as [Hi Hx].
    assert (Hlt : (Z.to_nat index < length (Quest.rewards this))%nat)
      by (eapply lookup_lt_Some; exact Hx).
    repeat split.
    + unfold at_index. destruct (index <? 0) eqn:E; [lia |].
      now rewrite list_lookup_insert_eq.
    + intros j Hj. unfold at_index. destruct (j <? 0) eqn:E; [reflexivity |].
      rewrite list_lookup_insert_ne; [reflexivity | lia].
    + apply length_insert.
Qed.

Lemma toggle_at_index_witness :
  let a := Task.mk (VStr "a") (VBool false) (VBool false) (VBool false) in
  let a' := Task.mk (VStr "a") (VBool false) (VBool false) (VBool true) in
  let this := Quest.mk (Some "q1") (VStr "Quest") VNull (VStr "active")
                (VStr "") (VStr "") (VStr "actor") (VStr "actor")
                (VStr "center") (VStr "") (VStr "center") None []
                [Some a] [] None in
  Quest.toggleTask this 3 = this /\
  Quest.toggleTask this (-1) = this /\
  Quest.toggleReward this 0 = this /\
  Quest.toggleTask this 0 = Quest.set_tasks [Some a'] this.
Proof.
  intros a a' this.
  pose proof (toggle_at_index this 3) as (H3 & _).
  pose proof (toggle_at_index this (-1)) as (Hm & _).
  pose proof (toggle_at_index this 0) as (_ & H0 & Hs & _).
  split; [apply H3; reflexivity |].
  split; [apply Hm; reflexivity |].
  split; [apply H0; reflexivity |].
  destruct (Hs a) as (Heq & _); [reflexivity | exact Heq].
Defined.

(** ** Quest.sortTasks and Quest.sortRewards *)

Section Splice.

Context {A : Type}.
Implicit Types (arr rest : list A) (x : A).

(** Removing one element at an index inside the array. *)
Lemma splice_remove_one arr (i : Z) x :
  0 <= i -> arr !! Z.to_nat i = Some x ->
  splice arr i 1 [] = ([x], base.delete (Z.to_nat i) arr).
Proof.
  intros Hi Hx.
  assert (Hlt : (Z.to_nat i < length arr)%nat)
    by (eapply lookup_lt_Some; exact Hx).
  unfold splice, splice_start.
  destruct (i <? 0) eqn:E; [apply Z.ltb_lt in E; lia |].
  replace (Z.to_nat (Z.min i (Z.of_nat (length arr)))) with (Z.to_nat i)
    by lia.
  replace (Z.to_nat (Z.min (Z.max 1 0)
             (Z.of_nat (length arr) - Z.of_nat (Z.to_nat i))))
    with 1%nat by lia.
  f_equal.
  - rewrite (drop_S _ x _ Hx). reflexivity.
  - simpl. rewrite delete_take_drop. f_equal. f_equal. lia.
Qed.

(** Inserting one element. *)
Lemma splice_insert_one rest (n : Z) x :
  snd (splice rest n 0 [x])
  = take (splice_start (length rest) n) rest
      ++ x :: drop (splice_start (length rest) n) rest.
Proof.
  unfold splice. simpl.
  replace (Z.to_nat (Z.min (Z.max 0 0)
             (Z.of_nat (length rest)
              - Z.of_nat (splice_start (length rest) n))))
    with 0%nat by lia.
  now rewrite Nat.add_0_r.
Qed.

Lemma splice_start_inside (len : nat) (n : Z) :
  0 <= n <= Z.of_nat len -> splice_start len n = Z.to_nat n.
Proof.
  intros H. unfold splice_start.
  destruct (n <? 0) eqn:E; [apply Z.ltb_lt in E; lia | lia].
Qed.

Lemma splice_start_beyond (len : nat) (n : Z) :
  Z.of_nat len <= n -> splice_start len n = len.
Proof.
  intros H. unfold splice_start.
  destruct (n <? 0) eqn:E; [apply Z.ltb_lt in E; lia | lia].
Qed.

Lemma splice_start_negative (len : nat) (n : Z) :
  n < 0 -> splice_start len n = Z.to_nat (Z.max (Z.of_nat len + n) 0).
Proof.
  intros H. unfold splice_start.
  destruct (n <? 0) eqn:E; [reflexivity | apply Z.ltb_ge in E; lia].
Qed.

End Splice.

(** The move both methods make, for an index inside the array. *)
Lemma sort_entries_move {A} (arr : array A) (index : Z)
    (targetIdx : option Z) (e : option A) :
  0 <= index -> arr !! Z.to_nat index = Some e ->
  let rest := base.delete (Z.to_nat index) arr in
  length rest = pred (length arr) /\
  (idx_truthy targetIdx = false ->
   sort_entries arr index targetIdx = rest ++ [e]) /\
  (forall n : Z, targetIdx = Some n -> 0 < n <= Z.of_nat (length rest) ->
     sort_entries arr index targetIdx
       = take (Z.to_nat n) rest ++ e :: drop (Z.to_nat n) rest /\
     sort_entries arr index targetIdx !! Z.to_nat n = Some e) /\
  (forall n : Z, targetIdx = Some n -> Z.of_nat (length rest) < n ->
     sort_entries arr index targetIdx = rest ++ [e]) /\
  (forall n : Z, targetIdx = Some n -> n < 0 ->
     let k := Z.to_nat (Z.max (Z.of_nat (length rest) + n) 0) in
     sort_entries arr index targetIdx = take k rest ++ e :: drop k rest).
Proof.
  intros Hi He rest.
  assert (Hlt : (Z.to_nat index < length arr)%nat)
    by (eapply lookup_lt_Some; exact He).
  assert (Hs : forall t, sort_entries arr index t
                 = if idx_truthy t
                   then snd (splice rest (default 0 t) 0 [e])
                   else rest ++ [e]).
  { intros t. unfold sort_entries.
    rewrite (splice_remove_one arr index e Hi He). reflexivity. }
  assert (Hn : forall n, n <> 0 ->
                 sort_entries arr index (Some n)
                 = take (splice_start (length rest) n) rest
                     ++ e :: drop (splice_start (length rest) n) rest).
  { intros n Hn. rewrite Hs. unfold idx_truthy.
    rewrite (proj2 (Z.eqb_neq n 0) Hn). cbn [negb].
    apply splice_insert_one. }
  split; [| split; [| split; [| split]]].
  - subst rest. rewrite length_delete; [lia | eauto].
  - intros Ht. now rewrite Hs, Ht.
  - intros n -> Hr. rewrite Hn, splice_start_inside by lia.
    split; [reflexivity |].
    rewrite lookup_app_r; rewrite length_take; [| lia].
    replace (Z.to_nat n - Z.to_nat n `min` length rest)%nat with 0%nat
      by lia.
    reflexivity.
  - intros n -> Hr. rewrite Hn, splice_start_beyond by lia.
    now rewrite firstn_all, drop_all.
  - intros n -> Hr k. rewrite Hn, splice_start_negative by lia.
    reflexivity.
Qed.



(** ** Quest.save *)

(** C7. [save()] resolves to [undefined] and leaves the journal, and the
    world as a whole, untouched when the quest has no journal entry (no
    identifier, or none under it) or the user may not update it; otherwise
    it resolves to the quest's identifier after one update of that entry,
    which stores the quest's JSON.  Neither case raises. *)
Theorem save_skips_or_updates (this : Quest.t) (w : Quest.World) :
  (Quest._id this = None -> Quest.save this w = (VUndefined, w)) /\
  (forall k : string,
     Quest._id this = Some k -> Quest.journal w !! k = None ->
     Quest.save this w = (VUndefined, w)) /\
  (forall (k : string) (e : Quest.Entry),
     Quest._id this = Some k -> Quest.journal w !! k = Some e ->
     Quest.canUpdate e = false ->
     Quest.save this w = (VUndefined, w)) /\
  (forall (k : string) (e : Quest.Entry),
     Quest._id this = Some k -> Quest.journal w !! k = Some e ->
     Quest.canUpdate e = true ->
     let w' := snd (Quest.save this w) in
     fst (Quest.save this w) = VStr k /\
     Quest.calls w' = Quest.calls w ++ [Quest.EntryUpdate k] /\
     (exists e' : Quest.Entry,
        Quest.journal w' = <[k := e']> (Quest.journal w) /\
        Quest.e_json e' = Some (Quest.toJSON this) /\
        Quest.canUpdate e' = true) /\
     Quest.index w' = Quest.index w).
Proof.
  unfold Quest.save. split; [| split; [| split]].
  - intros ->. reflexivity.
  - intros k -> ->. reflexivity.
  - intros k e -> -> ->. reflexivity.
  - intros k e -> -> Hc. rewrite Hc. cbn.
    split; [reflexivity |]. split; [reflexivity |].
    split; [| reflexivity].
    eexists. split; [reflexivity |]. split; reflexivity.
Qed.

Lemma save_skips_or_updates_witness :
  let this := Quest.mk (Some "q1") (VStr "Quest") VNull (VStr "active")
                (VStr "") (VStr "") (VStr "actor") (VStr "actor")
                (VStr "center") (VStr "") (VStr "center") None []
                [] [] (Some "q1") in
  let locked := Quest.mk_entry false (VStr "Quest") None in
  let owned := Quest.mk_entry true (VStr "Quest") None in
  let w0 := Quest.mk_world ∅ ∅ (fun key => key) [] in
  let w1 := Quest.mk_world {[ "q1" := locked ]} ∅ (fun key => key) [] in
  let w2 := Quest.mk_world {[ "q1" := owned ]} ∅ (fun key => key) [] in
  Quest.save this w0 = (VUndefined, w0) /\
  Quest.save this w1 = (VUndefined, w1) /\
  fst (Quest.save this w2) = VStr "q1" /\
  Quest.calls (snd (Quest.save this w2)) = [Quest.EntryUpdate "q1"].
Proof.
  intros this locked owned w0 w1 w2.
  pose proof (save_skips_or_updates this w0) as (_ & H0 & _).
  pose proof (save_skips_or_updates this w1) as (_ & _ & H1 & _).
  pose proof (save_skips_or_updates this w2) as (_ & _ & _ & H2).
  split; [apply (H0 "q1"); reflexivity |].
  split; [apply (H1 "q1" locked); reflexivity |].
  destruct (H2 "q1" owned) as (Hv & Hc & _); [reflexivity ..|].
  split; [exact Hv | exact Hc].
Defined.

(** ** QuestTracker.prepareQuests *)

(** C8. With [showOnlyPrimary] set the collection has the one entry made
    from the primary quest when there is one and no entry otherwise; the
    quest database is not queried, and what it holds does not matter. *)
Theorem prepareQuests_primary_only (env : QuestTracker.Env)
    (primaryQuest : QuestTracker.QuestEntry) :
  QuestTracker.prepareQuests env true (Some primaryQuest)
    = ([QuestTracker.view_of env primaryQuest], []) /\
  length (fst (QuestTracker.prepareQuests env true (Some primaryQuest)))
    = 1%nat /\
  QuestTracker.prepareQuests env true None = ([], []) /\
  length (fst (QuestTracker.prepareQuests env true None)) = 0%nat /\
  (forall (active : list QuestTracker.QuestEntry)
          (p : option QuestTracker.QuestEntry),
     let env' := QuestTracker.mk_env
                   (QuestTracker.isGM env)
                   (QuestTracker.isTrustedPlayerEdit env)
                   (QuestTracker.sessionStorage env)
                   (QuestTracker.trackerFolderState env) active in
     QuestTracker.prepareQuests env' true p
       = QuestTracker.prepareQuests env true p /\
     snd (QuestTracker.prepareQuests env true p) = []).
Proof.
  repeat split; destruct p; reflexivity.
Qed.

(** Without the flag the database is asked for the active quests. *)
Lemma prepareQuests_all_active (env : QuestTracker.Env)
    (p : option QuestTracker.QuestEntry) :
  QuestTracker.prepareQuests env false p
  = (map (QuestTracker.view_of env) (QuestTracker.activeQuests env),
     [QuestTracker.SortCollectActive]).
Proof. reflexivity. Qed.

(** ** Reward.create and the Reward constructors *)

Lemma Reward_new_total (data : Value) :
  data <> VNull ->
  exists ty d h : Value,
    get (default_arg data) "type" = Ok ty /\
    get (default_arg data) "data" = Ok d /\
    get (default_arg data) "hidden" = Ok h /\
    RewardEntity.new data
      = Ok (RewardEntity.mk (js_or ty VNull) (js_or d (VObj []))
                            (js_or h (VBool false))) /\
    Reward.new data
      = Ok (Reward.mk (js_or ty VNull) (js_or d (VObj []))
                      (js_or h (VBool false))).
Proof.
  intros H. destruct data; try contradiction;
    do 3 eexists; repeat split; reflexivity.
Qed.

Lemma create_cases (data : Value) (ty d : Value) :
  get (default_arg data) "type" = Ok ty ->
  get (default_arg data) "data" = Ok d ->
  RewardEntity.create data
  = if is_undefined ty then Throw RewardEntity.err_type
    else if is_undefined d then Throw RewardEntity.err_data
    else match get d "name", get d "img" with
         | Throw e, _ => Throw e
         | Ok n, Throw e =>
             if is_undefined n then Throw RewardEntity.err_data
             else Throw e
         | Ok n, Ok i =>
             if is_undefined n then Throw RewardEntity.err_data
             else if is_undefined i then Throw RewardEntity.err_data
             else RewardEntity.new data
         end.
Proof.
  intros Ht Hd. unfold RewardEntity.create. rewrite Ht. cbn [bind].
  destruct (is_undefined ty); [reflexivity |].
  rewrite Hd. cbn [bind].
  destruct (is_undefined d); [reflexivity |].
  destruct (get d "name") as [n|e]; cbn [bind]; [| reflexivity].
  destruct (get d "img") as [i|e]; cbn [bind]; [| reflexivity].
  now replace (RewardEntity.new (default_arg data))
    with (RewardEntity.new data) by (now destruct data).
Qed.

Lemma is_undefined_true (v : Value) :
  is_undefined v = true <-> v = VUndefined.
Proof. destruct v; simpl; split; congruence. Qed.

Lemma get_not_null (d : Value) (k : string) :
  d <> VUndefined -> d <> VNull -> exists x, get d k = Ok x.
Proof. destruct d; try contradiction; eexists; reflexivity. Qed.

(** C6, as the code has it.  For any argument but [null]:
    [Reward.create] throws a localized error exactly when [type], [data],
    [data.name] or [data.img] is absent; when all are present and [data]
    is not [null] it returns what the constructor builds; when [type] is
    present and [data] is [null] it throws a TypeError; and the
    constructor itself returns a reward. *)
Theorem Reward_create_validates (data : Value) :
  data <> VNull ->
  (descriptive (RewardEntity.create data)
     <-> required_missing (default_arg data)) /\
  (~ required_missing (default_arg data) ->
   get (default_arg data) "data" <> Ok VNull ->
   RewardEntity.create data = RewardEntity.new data) /\
  (~ missing (default_arg data) "type" ->
   get (default_arg data) "data" = Ok VNull ->
   RewardEntity.create data = Throw TypeError) /\
  (exists r : RewardEntity.t, RewardEntity.new data = Ok r).
Proof.
  intros Hnull.
  destruct (Reward_new_total data Hnull)
    as (ty & d & h & Ht & Hd & Hh & Hnew & _).
  pose proof (create_cases data ty d Ht Hd) as Hc.
  unfold required_missing, missing, descriptive.
  rewrite Ht, Hd.
  assert (Hty : Ok ty = Ok VUndefined <-> is_undefined ty = true).
  { rewrite is_undefined_true. split; [now inversion 1 | now intros ->]. }
  assert (Hdd : Ok d = Ok VUndefined <-> is_undefined d = true).
  { rewrite is_undefined_true. split; [now inversion 1 | now intros ->]. }
  split; [| split; [| split]].
  - destruct (is_undefined ty) eqn:Ety.
    { split; [intros _; left; now apply Hty | intros _; rewrite Hc; eauto]. }
    destruct (is_undefined d) eqn:Ed.
    { split; [intros _; right; left; now apply Hdd
             | intros _; rewrite Hc; eauto]. }
    destruct (get d "name") as [n|e] eqn:En.
    2:{ rewrite Hc. split.
        - intros [key Hk]. destruct d; simpl in En; try discriminate En;
            inversion En; subst; discriminate Hk.
        - intros [H | [H | (d' & Hd' & [H | H])]].
          + apply Hty in H. discriminate H.
          + apply Hdd in H. discriminate H.
          + inversion Hd'; subst. rewrite En in H. discriminate H.
          + inversion Hd'; subst. destruct d'; simpl in En, H;
              discriminate. }
    destruct (get d "img") as [i|e] eqn:Ei.
    2:{ destruct d; simpl in En, Ei; discriminate. }
    rewrite Hc.
    destruct (is_undefined n) eqn:Hn.
    { apply is_undefined_true in Hn. subst n.
      split; [| eauto]. intros _. right. right. exists d. split; [done |].
      left. exact En. }
    destruct (is_undefined i) eqn:Hi.
    { apply is_undefined_true in Hi. subst i.
      split; [| eauto]. intros _. right. right. exists d. split; [done |].
      right. exact Ei. }
    rewrite Hnew. split.
    + intros [key Hk]. discriminate Hk.
    + intros [H | [H | (d' & Hd' & [H | H])]].
      * apply Hty in H. discriminate H.
      * apply Hdd in H. discriminate H.
      * inversion Hd'; subst. rewrite En in H. inversion H; subst.
        discriminate Hn.
      * inversion Hd'; subst. rewrite Ei in H. inversion H; subst.
        discriminate Hi.
  - intros Hm Hdn. rewrite Hc.
    destruct (is_undefined ty) eqn:Ety.
    { exfalso. apply Hm. left. now apply Hty. }
    destruct (is_undefined d) eqn:Ed.
    { exfalso. apply Hm. right. left. now apply Hdd. }
    destruct (get_not_null d "name") as [n En].
    { intros ->. discriminate Ed. } { intros ->. now apply Hdn. }
    destruct (get_not_null d "img") as [i Ei].
    { intros ->. discriminate Ed. } { intros ->. now apply Hdn. }
    rewrite En, Ei.
    destruct (is_undefined n) eqn:Hn.
    { apply is_undefined_true in Hn. subst n. exfalso. apply Hm.
      right. right. exists d. split; [done | now left]. }
    destruct (is_undefined i) eqn:Hi.
    { apply is_undefined_true in Hi. subst i. exfalso. apply Hm.
      right. right. exists d. split; [done | now right]. }
    reflexivity.
  - intros Hm Hdn. inversion Hdn; subst d. rewrite Hc.
    destruct (is_undefined ty) eqn:Ety; [| reflexivity].
    exfalso. apply Hm. now apply Hty.
  - eexists. exact Hnew.
Qed.

Lemma Reward_create_validates_witness :
  let sword := VObj [("type", VStr "item");
                     ("data", VObj [("name", VStr "Sword");
                                    ("img", VStr "sword.png")])] in
  RewardEntity.create sword = RewardEntity.new sword /\
  descriptive (RewardEntity.create (VObj [("type", VStr "item")])) /\
  exists r : RewardEntity.t, RewardEntity.new sword = Ok r.
Proof.
  intros sword.
  assert (Hs : sword <> VNull) by discriminate.
  assert (Hi : VObj [("type", VStr "item")] <> VNull) by discriminate.
  destruct (Reward_create_validates sword Hs) as (_ & Hok & _ & Hnew).
  destruct (Reward_create_validates (VObj [("type", VStr "item")]) Hi)
    as (Hiff & _).
  split.
  - apply Hok; [| discriminate].
    intros [H | [H | (d & Hd & [H | H])]]; try discriminate H;
      inversion Hd; subst d; discriminate H.
  - split; [| exact Hnew].
    apply Hiff. right. left. reflexivity.
Defined.

(** C6 as stated fails at two inputs: with [type] present and [data]
    [null], [create] raises a TypeError (neither the localized error nor
    a reward), and the constructor throws when handed [null]. *)
Lemma Reward_null_throws :
  RewardEntity.create (VObj [("type", VStr "item"); ("data", VNull)])
    = Throw TypeError /\
  ~ descriptive
      (RewardEntity.create (VObj [("type", VStr "item"); ("data", VNull)]))
  /\
  RewardEntity.new VNull = Throw TypeError /\
  Reward.new VNull = Throw TypeError.
Proof.
  split; [reflexivity |]. split; [| split; reflexivity].
  intros [key H]. discriminate H.
Qed.

(** The example of the specification: [Reward.create({type: 'item'})]
    throws the error for missing data. *)
Lemma Reward_create_without_data :
  RewardEntity.create (VObj [("type", VStr "item")])
  = Throw RewardEntity.err_data.
Proof. reflexivity. Qed.

(** ** The two Reward classes *)

Lemma json_clone_data (v : Value) : json_data v = true -> json_clone v = v.
Proof.
  revert v. fix IH 1. intros [ | | b | n | s | items | fields] H;
    try reflexivity.
  - simpl in *. f_equal.
    induction items as [|x rest IHrest]; [reflexivity |].
    simpl in H. apply andb_true_iff in H as [Hx Hrest].
    simpl. rewrite IHrest by exact Hrest. f_equal.
    pose proof (IH x Hx) as Hc.
    destruct x; try reflexivity; try discriminate Hx; exact Hc.
  - simpl in *. f_equal.
    induction fields as [|[k x] rest IHrest]; [reflexivity |].
    apply andb_true_iff in H as [Hx Hrest].
    rewrite IHrest by exact Hrest.
    pose proof (IH x Hx) as Hc.
    destruct x; try reflexivity; try discriminate Hx;
      f_equal; f_equal; exact Hc.
Qed.

Lemma json_data_assoc (fields : list (string * Value)) (k : string) :
  json_data (VObj fields) = true ->
  assoc k fields = VUndefined \/ json_data (assoc k fields) = true.
Proof.
  induction fields as [|[k' x] rest IH]; intros H; [now left |].
  simpl in H. apply andb_true_iff in H as [Hx Hrest].
  simpl. destruct (String.eqb k k'); [now right | now apply IH].
Qed.

Lemma json_data_get (data : Value) (k : string) (x : Value) :
  json_data data = true -> get data k = Ok x ->
  x = VUndefined \/ json_data x = true.
Proof.
  intros H Hg. destruct data; simpl in Hg; try discriminate Hg;
    inversion Hg; subst; try (now left).
  - destruct (String.eqb k "length"); [now right | now left].
  - destruct (String.eqb k "length"); [now right | now left].
  - now apply json_data_assoc.
Qed.

Lemma json_data_or (x dflt : Value) :
  x = VUndefined \/ json_data x = true -> json_data dflt = true ->
  json_data (js_or x dflt) = true.
Proof.
  intros [-> | H] Hd; [exact Hd |].
  unfold js_or. now destruct (truthy x).
Qed.

Lemma Reward_fields_json_data (data : Value) (r : RewardEntity.t) :
  json_data data = true -> RewardEntity.new data = Ok r ->
  json_data (RewardEntity.toJSON r) = true.
Proof.
  intros Hj Hnew.
  assert (Hn : data <> VNull) by (intros ->; discriminate Hnew).
  destruct (Reward_new_total data Hn)
    as (ty & d & h & Ht & Hd & Hh & Hr & _).
  rewrite Hr in Hnew. inversion Hnew; subst r; clear Hnew.
  assert (Hj' : json_data (default_arg data) = true)
    by (destruct data; try exact Hj; reflexivity).
  unfold RewardEntity.toJSON. simpl.
  rewrite (json_data_or ty VNull), (json_data_or d (VObj [])),
    (json_data_or h (VBool false));
    try reflexivity; eapply json_data_get; eassumption.
Qed.




(** ** Quest.delete *)

Section Delete.

Import Quest.

Implicit Types (w : World) (i : gmap string t) (q : t).

(** A property of a quest that [f] keeps stays true of the quest under
    any key. *)
Lemma alter_keeps (Q : t -> Prop) f k i k' :
  (forall q, Q q -> Q (f q)) ->
  (exists q, i !! k' = Some q /\ Q q) ->
  exists q, alter f k i !! k' = Some q /\ Q q.
Proof.
  intros Hf (q & Hq & HQ). rewrite lookup_alter. case_decide.
  - subst k'. rewrite Hq. exists (f q). split; [reflexivity | auto].
  - now exists q.
Qed.

(** A property [f] establishes is true of the quest it was applied to. *)
Lemma alter_makes (Q : t -> Prop) f k i :
  (forall q, Q (f q)) -> is_Some (i !! k) ->
  exists q, alter f k i !! k = Some q /\ Q q.
Proof.
  intros Hf [q Hq]. rewrite lookup_alter_eq, Hq.
  exists (f q). split; [reflexivity | auto].
Qed.

Lemma index_save q w : index (snd (save q w)) = index w.
Proof.
  unfold save. destruct (_id q) as [k|]; [| reflexivity].
  destruct (journal w !! k) as [e|]; [| reflexivity].
  now destruct (canUpdate e).
Qed.

Lemma index_save_at k w : index (save_at k w) = index w.
Proof.
  unfold save_at. destruct (index w !! k); [apply index_save | reflexivity].
Qed.

(** One turn of the loop, for a child the index knows and with a parent
    in hand. *)
Lemma reparent_found p pid w saved c q :
  index w !! c = Some q ->
  exists w',
    reparent (Some p) pid (w, saved) (Some c) = (w', saved ++ [_id q]) /\
    index w'
    = alter (addSubquest (_id q)) p (alter (set_parent pid) c (index w)).
Proof.
  intros Hq. unfold reparent, Fetch_quest. rewrite Hq.
  assert (Hid : id_at (save_at c (modify c (set_parent pid) w)) c
                = _id q).
  { unfold id_at. rewrite index_save_at. cbn.
    now rewrite lookup_alter_eq, Hq. }
  rewrite Hid. eexists. split; [reflexivity |].
  cbn. now rewrite index_save_at.
Qed.

(** What [delete] returns and does to the index, for a quest with a
    parent and two subquests that the index resolves. *)
Lemma delete_family (A P B C : t) w (ak pk bk ck : string) :
  _id A = Some ak -> parent A = Some pk ->
  subquests A = [Some bk; Some ck] ->
  index w !! pk = Some P -> index w !! bk = Some B ->
  index w !! ck = Some C ->
  _id P = Some pk -> _id B = Some bk -> _id C = Some ck ->
  exists w',
    delete A w
    = ({| deleteID := Some ak;
          savedIDs := [Some bk; Some ck; Some pk] |}, w') /\
    index w'
    = alter (addSubquest (Some ck)) pk
        (alter (set_parent (Some pk)) ck
           (alter (addSubquest (Some bk)) pk
              (alter (set_parent (Some pk)) bk
                 (alter (removeSubquest (Some ak)) pk (index w))))).
Proof.
  intros HA HAp HAs HP HB HC HPid HBid HCid.
  unfold delete. rewrite HAp, HAs, HA.
  unfold Fetch_quest at 1 2 3 4. rewrite HP.
  replace (id_at w pk) with (Some pk) by (unfold id_at; now rewrite HP, HPid).
  set (w1 := modify pk (removeSubquest (Some ak)) w).
  assert (H1 : exists q, index w1 !! bk = Some q /\ _id q = Some bk).
  { apply (alter_keeps (fun q => _id q = Some bk)); [auto | eauto]. }
  destruct H1 as (q1 & Hq1 & Hid1).
  destruct (reparent_found pk (Some pk) w1 [] bk q1 Hq1)
    as (w2 & Hstep1 & Hi2).
  cbn [fold_left]. rewrite Hstep1, Hid1.
  assert (H2 : exists q, index w2 !! ck = Some q /\ _id q = Some ck).
  { rewrite Hi2.
    do 3 (apply (alter_keeps (fun q => _id q = Some ck)); [auto |]).
    eauto. }
  destruct H2 as (q2 & Hq2 & Hid2).
  destruct (reparent_found pk (Some pk) w2 ([] ++ [Some bk]) ck q2 Hq2)
    as (w3 & Hstep2 & Hi3).
  rewrite Hstep2, Hid2.
  assert (H3 : id_at w3 pk = Some pk).
  { assert (H : exists q, index w3 !! pk = Some q /\ _id q = Some pk).
    { rewrite Hi3, Hi2.
      do 5 (apply (alter_keeps (fun q => _id q = Some pk)); [auto |]).
      eauto. }
    destruct H as (q & Hq & Hid). unfold id_at. now rewrite Hq. }
  rewrite H3.
  assert (Hfinal : index (save_at pk w3)
                   = alter (addSubquest (Some ck)) pk
                       (alter (set_parent (Some pk)) ck
                          (alter (addSubquest (Some bk)) pk
                             (alter (set_parent (Some pk)) bk
                                (alter (removeSubquest (Some ak)) pk
                                       (index w)))))).
  { now rewrite index_save_at, Hi3, Hi2, Hid1, Hid2. }
  destruct (entry A) as [ek|]; eexists; (split; [reflexivity |]);
    cbn [index]; exact Hfinal.
Qed.

Lemma removeSubquest_gone (id : option string) q :
  id ∉ subquests (removeSubquest id q).
Proof.
  cbn. rewrite list_elem_of_filter. intros [H _]. now apply H.
Qed.

Lemma addSubquest_in (id : option string) q :
  id ∈ subquests (addSubquest id q).
Proof. cbn. apply elem_of_app. right. now left. Qed.

Lemma addSubquest_keeps_in (id x : option string) q :
  id ∈ subquests q -> id ∈ subquests (addSubquest x q).
Proof. cbn. intros H. apply elem_of_app. now left. Qed.

Lemma addSubquest_keeps_out (id x : option string) q :
  id <> x -> id ∉ subquests q -> id ∉ subquests (addSubquest x q).
Proof.
  cbn. intros Hx H Hin. apply elem_of_app in Hin as [Hin | Hin].
  - now apply H.
  - apply list_elem_of_singleton in Hin. now apply Hx.
Qed.

End Delete.

(** C2. Quest A has parent P and subquests B then C, all three resolved
    by the index under their own identifiers, and A's identifier differs
    from theirs.  Then [A.delete()] returns A's identifier as [deleteID]
    and exactly B's, C's and P's identifiers, in that order, as
    [savedIDs]; afterwards P's subquest list holds B's and C's identifiers
    and not A's, and the parent of B and of C is P's identifier. *)
Theorem delete_reparents (A P B C : Quest.t) (w : Quest.World)
    (ak pk bk ck : string) :
  Quest._id A = Some ak -> Quest.parent A = Some pk ->
  Quest.subquests A = [Some bk; Some ck] ->
  Quest.index w !! pk = Some P -> Quest.index w !! bk = Some B ->
  Quest.index w !! ck = Some C ->
  Quest._id P = Some pk -> Quest._id B = Some bk ->
  Quest._id C = Some ck ->
  ak <> pk -> ak <> bk -> ak <> ck ->
  exists (w' : Quest.World) (P' B' C' : Quest.t),
    (Quest.delete A w
     = ({| Quest.deleteID := Some ak;
           Quest.savedIDs := [Some bk; Some ck; Some pk] |}, w')) /\
    Quest.index w' !! pk = Some P' /\
    Quest.index w' !! bk = Some B' /\
    Quest.index w' !! ck = Some C' /\
    Quest._id P' = Some pk /\
    Some bk ∈ Quest.subquests P' /\
    Some ck ∈ Quest.subquests P' /\
    (Some ak ∉ Quest.subquests P') /\
    Quest.parent B' = Some pk /\
    Quest.parent C' = Some pk.
Proof.
  intros HA HAp HAs HP HB HC HPid HBid HCid Hap Hab Hac.
  destruct (delete_family A P B C w ak pk bk ck) as (w' & Hdel & Hi);
    try assumption.
  assert (Hne : forall x y : string, x <> y -> Some x <> Some y)
    by congruence.
  (* P afterwards *)
  assert (Hpid : exists q, Quest.index w' !! pk = Some q /\
                           Quest._id q = Some pk).
  { rewrite Hi.
    do 5 (apply (alter_keeps (fun q => Quest._id q = Some pk)); [auto |]).
    eauto. }
  assert (Hpa : exists q, Quest.index w' !! pk = Some q /\
                          Some ak ∉ Quest.subquests q).
  { rewrite Hi.
    apply alter_keeps;
      [intros q; apply addSubquest_keeps_out; auto |].
    apply alter_keeps; [auto |].
    apply alter_keeps;
      [intros q; apply addSubquest_keeps_out; auto |].
    apply alter_keeps; [auto |].
    apply alter_makes; [apply removeSubquest_gone | eauto]. }
  assert (Hpb : exists q, Quest.index w' !! pk = Some q /\
                          Some bk ∈ Quest.subquests q).
  { rewrite Hi.
    apply alter_keeps; [intros q; apply addSubquest_keeps_in |].
    apply alter_keeps; [auto |].
    apply alter_makes; [apply addSubquest_in |].
    rewrite !lookup_alter_is_Some. eauto. }
  assert (Hpc : exists q, Quest.index w' !! pk = Some q /\
                          Some ck ∈ Quest.subquests q).
  { rewrite Hi.
    apply alter_makes; [apply addSubquest_in |].
    rewrite !lookup_alter_is_Some. eauto. }
  (* B and C afterwards *)
  assert (Hb : exists q, Quest.index w' !! bk = Some q /\
                         Quest.parent q = Some pk).
  { rewrite Hi.
    apply alter_keeps; [auto |].
    apply alter_keeps; [auto |].
    apply alter_keeps; [auto |].
    apply alter_makes; [auto |].
    rewrite !lookup_alter_is_Some. eauto. }
  assert (Hc : exists q, Quest.index w' !! ck = Some q /\
                         Quest.parent q = Some pk).
  { rewrite Hi.
    apply alter_keeps; [auto |].
    apply alter_makes; [auto |].
    rewrite !lookup_alter_is_Some. eauto. }
  destruct Hpid as (P' & HP' & Hid'), Hpa as (P1 & HP1 & Hout),
    Hpb as (P2 & HP2 & Hinb), Hpc as (P3 & HP3 & Hinc),
    Hb as (B' & HB' & HBp), Hc as (C' & HC' & HCp).
  assert (P1 = P') by congruence. assert (P2 = P') by congruence.
  assert (P3 = P') by congruence. subst P1 P2 P3.
  exists w', P', B', C'. repeat split; assumption.
Qed.

Lemma delete_reparents_witness :
  let quest (id : string) (parent : option string)
            (subquests : list (option string)) :=
    Quest.mk (Some id) (VStr id) VNull (VStr "active") (VStr "") (VStr "")
             (VStr "actor") (VStr "actor") (VStr "center") (VStr "")
             (VStr "center") parent subquests [] [] (Some id) in
  let A := quest "A" (Some "P") [Some "B"; Some "C"] in
  let P := quest "P" None [Some "A"; Some "D"] in
  let B := quest "B" (Some "A") [] in
  let C := quest "C" (Some "A") [] in
  let page := Quest.mk_entry true (VStr "") None in
  let w := Quest.mk_world
             (<["A" := page]> (<["P" := page]> (<["B" := page]>
                                                  {[ "C" := page ]})))
             (<["P" := P]> (<["B" := B]> {[ "C" := C ]}))
             (fun key => key) [] in
  Quest.savedIDs (fst (Quest.delete A w)) = [Some "B"; Some "C"; Some "P"] /\
  Quest.deleteID (fst (Quest.delete A w)) = Some "A" /\
  (Quest.subquests <$> Quest.index (snd (Quest.delete A w)) !! "P")
    = Some [Some "D"; Some "B"; Some "C"] /\
  (Quest.parent <$> Quest.index (snd (Quest.delete A w)) !! "B")
    = Some (Some "P") /\
  Quest.calls (snd (Quest.delete A w))
    = [Quest.EntryUpdate "B"; Quest.EntryUpdate "C"; Quest.EntryUpdate "P";
       Quest.EntryDelete "A"] /\
  (Quest.e_json <$> Quest.journal (snd (Quest.delete A w)) !! "C")
    = Some (Some (Quest.toJSON (quest "C" (Some "P") []))).
Proof.
  intros quest A P B C page w.
  destruct (delete_reparents A P B C w "A" "P" "B" "C")
    as (w' & P' & B' & C' & Hdel & _);
    try reflexivity; try discriminate.
  split; [now rewrite Hdel |]. split; [now rewrite Hdel |].
  repeat split; vm_compute; reflexivity.
Defined.


(** * Further properties of the code *)

(** ** Task and Reward records *)

(** Whatever the flags hold, the first [toggle()] brings a task to a state
    that three more calls bring back; a task whose [completed] is neither
    [true] nor [false] (a constructor argument such as [1]) keeps that
    value for ever and only has [failed] cleared. *)
Theorem Task_toggle_settles (x : Task.t) :
  Task.toggle (Task.toggle (Task.toggle (Task.toggle x))) = Task.toggle x /\
  Task.name (Task.toggle x) = Task.name x /\
  Task.hidden (Task.toggle x) = Task.hidden x /\
  (is_true (Task.completed x) = false ->
   is_false (Task.completed x) = false ->
   Task.toggle x
     = Task.mk (Task.name x) (Task.completed x) (VBool false)
               (Task.hidden x) /\
   Task.toggle (Task.toggle x) = Task.toggle x).
Proof.
  destruct x as [n c f h].
  destruct c as [| |[]| | | |], f as [| |[]| | | |]; cbv;
    repeat split; discriminate.
Qed.

Lemma Task_toggle_settles_witness :
  let stuck := Task.mk (VStr "a") (VNum 1) (VBool true) (VBool false) in
  Task.toggle stuck = Task.mk (VStr "a") (VNum 1) (VBool false) (VBool false)
  /\ Task.toggle (Task.toggle stuck) = Task.toggle stuck.
Proof.
  intros stuck.
  destruct (Task_toggle_settles stuck) as (_ & _ & _ & H).
  apply H; reflexivity.
Defined.

(** Two calls of [toggleVisible()] leave [hidden] at the boolean of its
    truthiness, in all three classes: the record is back as it was when
    [hidden] was a boolean, and is not when the constructor was given
    another truthy value. *)
Theorem toggleVisible_twice :
  (forall x : Task.t,
     fst (Task.toggleVisible (fst (Task.toggleVisible x)))
     = Task.mk (Task.name x) (Task.completed x) (Task.failed x)
               (VBool (truthy (Task.hidden x)))) /\
  (forall r : Reward.t,
     fst (Reward.toggleVisible (fst (Reward.toggleVisible r)))
     = Reward.mk (Reward.type r) (Reward.data r)
                 (VBool (truthy (Reward.hidden r)))) /\
  (forall r : RewardEntity.t,
     fst (RewardEntity.toggleVisible (fst (RewardEntity.toggleVisible r)))
     = RewardEntity.mk (RewardEntity._type r) (RewardEntity._data r)
                       (VBool (truthy (RewardEntity._hidden r)))) /\
  (forall (n c f : Value) (b : bool),
     let x := Task.mk n c f (VBool b) in
     fst (Task.toggleVisible (fst (Task.toggleVisible x))) = x) /\
  (forall (t d : Value) (b : bool),
     let r := Reward.mk t d (VBool b) in
     fst (Reward.toggleVisible (fst (Reward.toggleVisible r))) = r) /\
  (exists x : Task.t,
     Task.new (VObj [("name", VStr "a"); ("hidden", VNum 1)]) = Ok x /\
     fst (Task.toggleVisible (fst (Task.toggleVisible x))) <> x).
Proof.
  assert (Hnn : forall v, js_not (js_not v) = VBool (truthy v)).
  { intros v. unfold js_not. simpl. now rewrite negb_involutive. }
  split; [| split; [| split; [| split; [| split]]]].
  - intros [n c f h]. unfold Task.toggleVisible. simpl. now rewrite Hnn.
  - intros [t d h]. unfold Reward.toggleVisible. simpl. now rewrite Hnn.
  - intros [t d h]. unfold RewardEntity.toggleVisible. simpl.
    now rewrite Hnn.
  - intros n c f b x. unfold x, Task.toggleVisible. simpl.
    now rewrite Hnn.
  - intros t d b r. unfold r, Reward.toggleVisible. simpl. now rewrite Hnn.
  - eexists. split; [reflexivity | discriminate].
Qed.

Lemma js_or_again (a d : Value) : js_or (js_or a d) d = js_or a d.
Proof. unfold js_or. destruct (truthy a) eqn:E; [now rewrite E | ].
  now destruct (truthy d). Qed.

Lemma Task_new_total (data : Value) :
  data <> VNull ->
  exists n c f h : Value,
    get (default_arg data) "name" = Ok n /\
    get (default_arg data) "completed" = Ok c /\
    get (default_arg data) "failed" = Ok f /\
    get (default_arg data) "hidden" = Ok h /\
    Task.new data
      = Ok (Task.mk (js_or n VNull) (js_or c (VBool false))
                    (js_or f (VBool false)) (js_or h (VBool false))).
Proof.
  intros H. destruct data; try contradiction;
    do 4 eexists; repeat split; reflexivity.
Qed.

Lemma Task_reload (data : Value) (x : Task.t) :
  json_data data = true -> Task.new data = Ok x ->
  json_data (Task.toJSON x) = true /\
  Task.new (Task.toJSON x) = Ok x.
Proof.
  intros Hj Hnew.
  assert (Hn : data <> VNull) by (intros ->; discriminate Hnew).
  destruct (Task_new_total data Hn)
    as (n & c & f & h & Hgn & Hgc & Hgf & Hgh & Hx).
  rewrite Hx in Hnew. inversion Hnew; subst x; clear Hnew.
  assert (Hj' : json_data (default_arg data) = true)
    by (destruct data; try exact Hj; reflexivity).
  assert (Hd : json_data
                 (VObj [("name", js_or n VNull);
                        ("completed", js_or c (VBool false));
                        ("failed", js_or f (VBool false));
                        ("hidden", js_or h (VBool false));
                        ("state",
                         VStr (Task.state
                                 (Task.mk (js_or n VNull)
                                    (js_or c (VBool false))
                                    (js_or f (VBool false))
                                    (js_or h (VBool false)))))]) = true).
  { simpl.
    rewrite (json_data_or n VNull), (json_data_or c (VBool false)),
      (json_data_or f (VBool false)), (json_data_or h (VBool false));
      try reflexivity; eapply json_data_get; eassumption. }
  unfold Task.toJSON. cbn [Task.name Task.completed Task.failed Task.hidden].
  rewrite (json_clone_data _ Hd). split; [exact Hd |].
  rewrite Task_new_record. cbn [assoc String.eqb Ascii.eqb Bool.eqb].
  now rewrite !js_or_again.
Qed.

(** A task built from plain JSON data and serialized with [toJSON()] is
    rebuilt by the constructor as the same task: storing and reloading a
    task loses nothing. *)
Theorem Task_toJSON_new_roundtrip (data : Value) (x : Task.t) :
  json_data data = true -> Task.new data = Ok x ->
  json_data (Task.toJSON x) = true /\
  Task.new (Task.toJSON x) = Ok x.
Proof. apply Task_reload. Qed.

Lemma Task_toJSON_new_roundtrip_witness :
  let data := VObj [("name", VStr "Find the amulet");
                    ("completed", VBool true)] in
  let x := Task.mk (VStr "Find the amulet") (VBool true) (VBool false)
                   (VBool false) in
  Task.new (Task.toJSON x) = Ok x.
Proof.
  intros data x.
  apply (Task_toJSON_new_roundtrip data x); reflexivity.
Defined.

(** The same for rewards: the standalone constructor rebuilds any reward
    it built from its [toJSON()] payload, and the nested one does when the
    record it was built from is plain JSON data. *)
Theorem Reward_toJSON_new_roundtrip (data : Value) :
  (forall e : RewardEntity.t,
     RewardEntity.new data = Ok e ->
     RewardEntity.new (RewardEntity.toJSON e) = Ok e) /\
  (forall r : Reward.t,
     json_data data = true -> Reward.new data = Ok r ->
     Reward.new (Reward.toJSON r) = Ok r).
Proof.
  split.
  - intros e He.
    assert (Hn : data <> VNull) by (intros ->; discriminate He).
    destruct (Reward_new_total data Hn)
      as (ty & d & h & _ & _ & _ & Hnew & _).
    rewrite Hnew in He. inversion He; subst e. cbn.
    now rewrite !js_or_again.
  - intros r Hj Hr.
    assert (Hn : data <> VNull) by (intros ->; discriminate Hr).
    destruct (Reward_new_total data Hn)
      as (ty & d & h & Ht & Hd & Hh & Hnew & Hnew').
    pose proof (Reward_fields_json_data data _ Hj Hnew) as Hjd.
    rewrite Hnew' in Hr. inversion Hr; subst r. clear Hr.
    unfold Reward.toJSON. cbn [Reward.type Reward.data Reward.hidden].
    unfold RewardEntity.toJSON in Hjd.
    cbn [RewardEntity._type RewardEntity._data RewardEntity._hidden] in Hjd.
    rewrite (json_clone_data _ Hjd). cbn.
    now rewrite !js_or_again.
Qed.

Lemma Reward_toJSON_new_roundtrip_witness :
  let data := VObj [("type", VStr "item");
                    ("data", VObj [("name", VStr "Sword")])] in
  let e := RewardEntity.mk (VStr "item") (VObj [("name", VStr "Sword")])
                           (VBool false) in
  let r := Reward.mk (VStr "item") (VObj [("name", VStr "Sword")])
                     (VBool false) in
  RewardEntity.new (RewardEntity.toJSON e) = Ok e /\
  Reward.new (Reward.toJSON r) = Ok r.
Proof.
  intros data e r.
  destruct (Reward_toJSON_new_roundtrip data) as (He & Hr).
  split; [apply He; reflexivity | apply Hr; reflexivity].
Defined.

(** ** The sequences of a quest *)

(** [removeTask(index)] and [removeReward(index)] return the quest as it
    is when nothing is stored at [index] (past the end, negative, or an
    empty slot); otherwise exactly that element goes: the sequence is one
    shorter, the elements before it stay where they are, the ones after it
    move up by one, and the other sequence is untouched. *)
Theorem remove_at_index (this : Quest.t) (index : Z) :
  (at_index (Quest.tasks this) index = None ->
   Quest.removeTask this index = this) /\
  (at_index (Quest.rewards this) index = None ->
   Quest.removeReward this index = this) /\
  (forall x : Task.t,
     at_index (Quest.tasks this) index = Some x ->
     let ts := Quest.tasks (Quest.removeTask this index) in
     ts = base.delete (Z.to_nat index) (Quest.tasks this) /\
     S (length ts) = length (Quest.tasks this) /\
     (forall j : nat, (j < Z.to_nat index)%nat ->
        ts !! j = Quest.tasks this !! j) /\
     (forall j : nat, (Z.to_nat index <= j)%nat ->
        ts !! j = Quest.tasks this !! S j) /\
     Quest.rewards (Quest.removeTask this index) = Quest.rewards this) /\
  (forall r : Reward.t,
     at_index (Quest.rewards this) index = Some r ->
     let rs := Quest.rewards (Quest.removeReward this index) in
     rs = base.delete (Z.to_nat index) (Quest.rewards this) /\
     S (length rs) = length (Quest.rewards this) /\
     (forall j : nat, (j < Z.to_nat index)%nat ->
        rs !! j = Quest.rewards this !! j) /\
     (forall j : nat, (Z.to_nat index <= j)%nat ->
        rs !! j = Quest.rewards this !! S j) /\
     Quest.tasks (Quest.removeReward this index) = Quest.tasks this).
Proof.
  assert (D : forall A (arr : array A) (x : A),
             at_index arr index = Some x ->
             snd (splice arr index 1 [])
               = base.delete (Z.to_nat index) arr /\
             S (length (base.delete (Z.to_nat index) arr)) = length arr).
  { intros A arr x H. apply at_index_Some in H as [Hi Hx].
    rewrite (splice_remove_one arr index (Some x) Hi Hx).
    split; [reflexivity |].
    assert (Z.to_nat index < length arr)%nat
      by (eapply lookup_lt_Some; exact Hx).
    rewrite length_delete by eauto. lia. }
  split; [| split; [| split]].
  - intros H. unfold Quest.removeTask. now rewrite H.
  - intros H. unfold Quest.removeReward. now rewrite H.
  - intros x H ts. subst ts. unfold Quest.removeTask. rewrite H.
    destruct (D _ _ _ H) as [-> Hl]. cbn [Quest.tasks Quest.set_tasks].
    split; [reflexivity |]. split; [exact Hl |].
    split; [intros j Hj; now apply list_lookup_delete_lt |].
    split; [intros j Hj; now apply list_lookup_delete_ge | reflexivity].
  - intros r H rs. subst rs. unfold Quest.removeReward. rewrite H.
    destruct (D _ _ _ H) as [-> Hl].
    cbn [Quest.rewards Quest.set_rewards].
    split; [reflexivity |]. split; [exact Hl |].
    split; [intros j Hj; now apply list_lookup_delete_lt |].
    split; [intros j Hj; now apply list_lookup_delete_ge | reflexivity].
Qed.

Lemma remove_at_index_witness :
  let a := Task.mk (VStr "a") (VBool false) (VBool false) (VBool false) in
  let b := Task.mk (VStr "b") (VBool false) (VBool false) (VBool false) in
  let this := Quest.mk (Some "q1") (VStr "Quest") VNull (VStr "active")
                (VStr "") (VStr "") (VStr "actor") (VStr "actor")
                (VStr "center") (VStr "") (VStr "center") None []
                [Some a; Some b] [] None in
  Quest.removeTask this 2 = this /\
  Quest.removeTask this (-1) = this /\
  Quest.tasks (Quest.removeTask this 0) = [Some b].
Proof.
  intros a b this.
  pose proof (remove_at_index this 2) as (H2 & _).
  pose proof (remove_at_index this (-1)) as (Hm & _).
  pose proof (remove_at_index this 0) as (_ & _ & H0 & _).
  split; [apply H2; reflexivity |].
  split; [apply Hm; reflexivity |].
  destruct (H0 a) as (Heq & _); [reflexivity | exact Heq].
Defined.

Lemma filter_ne_absent (id : option string) (l : list (option string)) :
  id ∉ l -> filter (fun x => x <> id) l = l.
Proof.
  induction l as [|y l IH]; intros H; [reflexivity |].
  apply not_elem_of_cons in H as [Hy Hl].
  rewrite filter_cons_True by congruence. now rewrite IH.
Qed.

(** [removeSubquest(id)] takes every occurrence of [id] out and keeps the
    other identifiers in their order; it undoes an [addSubquest(id)] on a
    quest that did not list [id], and doing it twice changes nothing more.
    [addSubquest] itself does not look for duplicates. *)
Theorem subquest_add_remove (this : Quest.t) (id : option string) :
  (id ∉ Quest.subquests (Quest.removeSubquest id this)) /\
  (forall x : option string, x <> id ->
     x ∈ Quest.subquests (Quest.removeSubquest id this)
     <-> x ∈ Quest.subquests this) /\
  Quest.removeSubquest id (Quest.addSubquest id this)
    = Quest.removeSubquest id this /\
  (id ∉ Quest.subquests this ->
   Quest.removeSubquest id (Quest.addSubquest id this) = this) /\
  Quest.removeSubquest id (Quest.removeSubquest id this)
    = Quest.removeSubquest id this /\
  Quest.subquests (Quest.addSubquest id (Quest.addSubquest id this))
    = Quest.subquests this ++ [id; id].
Proof.
  assert (Hadd : filter (fun x => x <> id) (Quest.subquests this ++ [id])
                 = filter (fun x => x <> id) (Quest.subquests this)).
  { rewrite filter_app, filter_cons_False by (intros H; now apply H).
    now rewrite filter_nil, app_nil_r. }
  split; [apply removeSubquest_gone |].
  split; [| split; [| split; [| split]]].
  - intros x Hx. cbn. rewrite list_elem_of_filter. tauto.
  - unfold Quest.removeSubquest, Quest.addSubquest.
    cbn [Quest.subquests Quest.set_subquests]. rewrite Hadd.
    now destruct this.
  - intros Hnot. unfold Quest.removeSubquest, Quest.addSubquest.
    cbn [Quest.subquests Quest.set_subquests].
    rewrite Hadd, filter_ne_absent by exact Hnot. now destruct this.
  - unfold Quest.removeSubquest at 1 3.
    rewrite filter_ne_absent by apply removeSubquest_gone.
    now destruct this.
  - cbn. now rewrite <- app_assoc.
Qed.

Lemma subquest_add_remove_witness :
  let this := Quest.mk (Some "q1") (VStr "Quest") VNull (VStr "active")
                (VStr "") (VStr "") (VStr "actor") (VStr "actor")
                (VStr "center") (VStr "") (VStr "center") None
                [Some "a"; Some "b"] [] [] None in
  Quest.removeSubquest (Some "c") (Quest.addSubquest (Some "c") this)
  = this.
Proof.
  intros this.
  destruct (subquest_add_remove this (Some "c")) as (_ & _ & _ & H & _).
  apply H. unfold this. cbn. rewrite !elem_of_cons, elem_of_nil.
  intros [H1 | [H1 | []]]; discriminate H1.
Defined.

(** [addReward] never throws on an argument other than [null]: it appends
    the one reward the constructor builds when the record's [type] is
    truthy, and returns the quest unchanged when it is not.  The reward is
    kept exactly when the standalone class would call it valid. *)
Theorem addReward_outcome (this : Quest.t) (data : Value) :
  data <> VNull ->
  exists (ty : Value) (r : Reward.t) (e : RewardEntity.t),
    get (default_arg data) "type" = Ok ty /\
    Reward.new data = Ok r /\ RewardEntity.new data = Ok e /\
    (truthy ty = false ->
     Quest.addReward this data = Ok this /\
     RewardEntity.isValid e = false) /\
    (truthy ty = true ->
     Quest.addReward this data
       = Ok (Quest.set_rewards (Quest.rewards this ++ [Some r]) this) /\
     Reward.type r = ty /\ RewardEntity.isValid e = true).
Proof.
  intros Hn.
  destruct (Reward_new_total data Hn)
    as (ty & d & h & Ht & Hd & Hh & He & Hr).
  exists ty. eexists. eexists.
  split; [exact Ht |]. split; [exact Hr |]. split; [exact He |].
  assert (Hdef : Reward.new (default_arg data) = Reward.new data)
    by now destruct data.
  unfold Quest.addReward. rewrite Hdef, Hr. cbn.
  unfold js_or. split; intros Hty; rewrite Hty.
  - split; reflexivity.
  - destruct ty; try discriminate Hty; repeat split.
Qed.

Lemma addReward_outcome_witness :
  let this := Quest.mk (Some "q1") (VStr "Quest") VNull (VStr "active")
                (VStr "") (VStr "") (VStr "actor") (VStr "actor")
                (VStr "center") (VStr "") (VStr "center") None []
                [] [] None in
  exists r : Reward.t,
    Quest.addReward this (VObj [("type", VStr "item")])
    = Ok (Quest.set_rewards [Some r] this).
Proof.
  intros this.
  destruct (addReward_outcome this (VObj [("type", VStr "item")]))
    as (ty & r & e & Ht & _ & _ & _ & Hyes); [discriminate |].
  exists r. inversion Ht; subst ty. now destruct Hyes as (H & _).
Defined.

(** What [addTask] does with the name the constructor stored: [null] (no
    name, or a falsy one) makes it throw; a string or a non-empty array is
    pushed; a number, [true] or an empty array makes the call return
    quietly without pushing anything. *)
Theorem addTask_outcome (this : Quest.t) (data : Value) (x : Task.t) :
  Task.new data = Ok x ->
  let pushed := Ok (Quest.set_tasks (Quest.tasks this ++ [Some x]) this) in
  (Task.name x = VNull -> Quest.addTask this data = Throw TypeError) /\
  (forall s, Task.name x = VStr s -> Quest.addTask this data = pushed) /\
  (forall n, Task.name x = VNum n -> Quest.addTask this data = Ok this) /\
  (forall b, Task.name x = VBool b -> Quest.addTask this data = Ok this) /\
  (forall items, Task.name x = VArr items ->
     Quest.addTask this data
     = if decide (items = []) then Ok this else pushed) /\
  Task.name x <> VUndefined /\ Task.name x <> VStr "".
Proof.
  intros Hx pushed.
  assert (Hn : data <> VNull) by (intros ->; discriminate Hx).
  assert (Hdef : Task.new (default_arg data) = Task.new data)
    by now destruct data.
  destruct (Task_new_total data Hn) as (n & c & f & h & _ & _ & _ & _ & Hnew).
  assert (Hname : Task.name x = js_or n VNull).
  { rewrite Hnew in Hx. now inversion Hx. }
  assert (Htr : Task.name x = VNull \/ truthy (Task.name x) = true).
  { rewrite Hname. unfold js_or. destruct (truthy n) eqn:E; auto. }
  unfold Quest.addTask. rewrite Hdef, Hx. cbn [bind].
  split; [intros ->; reflexivity |].
  split.
  { intros s Hs. rewrite Hs in *. destruct Htr as [H | H]; [discriminate |].
    destruct s; [discriminate H | reflexivity]. }
  split; [intros m ->; reflexivity |].
  split; [intros b ->; reflexivity |].
  split.
  { intros items ->. destruct items; reflexivity. }
  split; intros H; rewrite H in Htr; destruct Htr; discriminate.
Qed.

Lemma addTask_outcome_witness :
  let this := Quest.mk (Some "q1") (VStr "Quest") VNull (VStr "active")
                (VStr "") (VStr "") (VStr "actor") (VStr "actor")
                (VStr "center") (VStr "") (VStr "center") None []
                [] [] None in
  Quest.addTask this (VObj [("name", VNum 7)]) = Ok this.
Proof.
  intros this.
  destruct (addTask_outcome this (VObj [("name", VNum 7)])
              (Task.mk (VNum 7) (VBool false) (VBool false) (VBool false)))
    as (_ & _ & H & _); [reflexivity |].
  now apply (H 7).
Defined.

(** [toggleImage()] always leaves [image] at ['actor'] or ['token'];
    it swaps the two, so two calls give back a quest that showed one of
    them, and any other value is replaced by ['actor']. *)
Theorem toggleImage_swaps (this : Quest.t) :
  (Quest.image this = VStr "actor" ->
   Quest.image (Quest.toggleImage this) = VStr "token") /\
  (Quest.image this <> VStr "actor" ->
   Quest.image (Quest.toggleImage this) = VStr "actor") /\
  (Quest.image this = VStr "actor" \/ Quest.image this = VStr "token" ->
   Quest.toggleImage (Quest.toggleImage this) = this) /\
  Quest.toggleImage (Quest.toggleImage (Quest.toggleImage this))
    = Quest.toggleImage this.
Proof.
  assert (Hne : Quest.image this <> VStr "actor" ->
                Quest.toggleImage this = Quest.set_image (VStr "actor") this).
  { intros H. unfold Quest.toggleImage.
    destruct (Quest.image this) as [| | | |s| |]; try reflexivity.
    destruct (String.eqb_spec s "actor"); [congruence | reflexivity]. }
  split; [intros H; unfold Quest.toggleImage; now rewrite H |].
  split; [intros H; now rewrite Hne |].
  split.
  - intros [H | H]; destruct this; cbn in H; subst; reflexivity.
  - assert (H : Quest.image this = VStr "actor"
                \/ Quest.image this <> VStr "actor").
    { destruct (Quest.image this) as [| | | |s| |];
        try (right; discriminate).
      destruct (String.eqb_spec s "actor"); [left | right]; congruence. }
    destruct H as [H | H].
    + destruct this; cbn in H; subst; reflexivity.
    + rewrite (Hne H). reflexivity.
Qed.

Lemma toggleImage_swaps_witness :
  let this := Quest.mk (Some "q1") (VStr "Quest") VNull (VStr "active")
                (VStr "") (VStr "") (VStr "token") (VStr "actor")
                (VStr "center") (VStr "") (VStr "center") None []
                [] [] None in
  Quest.toggleImage (Quest.toggleImage this) = this /\
  Quest.image (Quest.toggleImage this) = VStr "actor".
Proof.
  intros this.
  destruct (toggleImage_swaps this) as (_ & Hn & H2 & _).
  split; [apply H2; now right | apply Hn; discriminate].
Defined.

Lemma insert_middle_Permutation {A} (rest : list A) (k : nat) (e : A) :
  take k rest ++ e :: drop k rest ≡ₚ e :: rest.
Proof.
  rewrite <- Permutation_middle. now rewrite take_drop.
Qed.

Lemma sort_entries_inside_Permutation {A} (arr : array A) (index : Z)
    (targetIdx : option Z) :
  0 <= index < Z.of_nat (length arr) ->
  sort_entries arr index targetIdx ≡ₚ arr.
Proof.
  intros [Hi Hlt].
  destruct (lookup_lt_is_Some_2 arr (Z.to_nat index)) as [e He]; [lia |].
  destruct (sort_entries_move arr index targetIdx e Hi He)
    as (_ & Hf & Hin & Hbig & Hneg).
  rewrite (delete_Permutation arr (Z.to_nat index) e He) at 2.
  assert (Hend : base.delete (Z.to_nat index) arr ++ [e]
                 ≡ₚ e :: base.delete (Z.to_nat index) arr)
    by (symmetry; apply Permutation_cons_append).
  destruct targetIdx as [n|]; [| now rewrite Hf].
  destruct (Z.eq_dec n 0) as [-> | Hn0]; [now rewrite Hf |].
  destruct (Z_lt_le_dec n 0) as [Hlt0 | Hge0].
  - rewrite (Hneg n eq_refl Hlt0). apply insert_middle_Permutation.
  - destruct (Z_le_gt_dec n
                (Z.of_nat (length (base.delete (Z.to_nat index) arr))))
      as [Hle | Hgt].
    + destruct (Hin n eq_refl) as [-> _]; [lia |].
      apply insert_middle_Permutation.
    + rewrite (Hbig n eq_refl) by lia. exact Hend.
Qed.

Lemma sort_entries_beyond {A} (arr : array A) (index : Z)
    (targetIdx : option Z) :
  Z.of_nat (length arr) <= index ->
  sort_entries arr index targetIdx ≡ₚ None :: arr.
Proof.
  intros Hge.
  assert (Hs : splice arr index 1 [] = ([], arr)).
  { unfold splice. rewrite splice_start_beyond by exact Hge.
    rewrite drop_all, firstn_all, drop_ge by lia.
    now rewrite take_nil, app_nil_r. }
  unfold sort_entries. rewrite Hs.
  change (mjoin (head (@nil (option A)))) with (@None A).
  destruct (idx_truthy targetIdx).
  - rewrite splice_insert_one. apply insert_middle_Permutation.
  - symmetry. apply Permutation_cons_append.
Qed.

(** With an index inside the sequence, [sortTasks] and [sortRewards] only
    reorder: the result holds the same entries, none lost or repeated.
    With an index at or past the end nothing is taken out and an empty
    ([undefined]) entry is put into the sequence, which grows by one. *)
Theorem sort_keeps_entries (this : Quest.t) (index : Z)
    (targetIdx : option Z) :
  (0 <= index < Z.of_nat (length (Quest.tasks this)) ->
   Quest.tasks (Quest.sortTasks this index targetIdx)
     ≡ₚ Quest.tasks this) /\
  (0 <= index < Z.of_nat (length (Quest.rewards this)) ->
   Quest.rewards (Quest.sortRewards this index targetIdx)
     ≡ₚ Quest.rewards this) /\
  (Z.of_nat (length (Quest.tasks this)) <= index ->
   Quest.tasks (Quest.sortTasks this index targetIdx)
     ≡ₚ None :: Quest.tasks this) /\
  (Z.of_nat (length (Quest.rewards this)) <= index ->
   Quest.rewards (Quest.sortRewards this index targetIdx)
     ≡ₚ None :: Quest.rewards this).
Proof.
  split; [| split; [| split]]; intros H; cbn.
  - now apply sort_entries_inside_Permutation.
  - now apply sort_entries_inside_Permutation.
  - now apply sort_entries_beyond.
  - now apply sort_entries_beyond.
Qed.

Lemma sort_keeps_entries_witness :
  let a := Some (Task.mk (VStr "a") (VBool false) (VBool false)
                         (VBool false)) in
  let b := Some (Task.mk (VStr "b") (VBool false) (VBool false)
                         (VBool false)) in
  let this := Quest.mk (Some "q1") (VStr "Quest") VNull (VStr "active")
                (VStr "") (VStr "") (VStr "actor") (VStr "actor")
                (VStr "center") (VStr "") (VStr "center") None []
                [a; b] [] None in
  Quest.tasks (Quest.sortTasks this 1 (Some (-5))) ≡ₚ [a; b] /\
  Quest.tasks (Quest.sortTasks this 2 None) ≡ₚ [None; a; b] /\
  Quest.tasks (Quest.sortTasks this 2 None) = [a; b; None].
Proof.
  intros a b this.
  destruct (sort_keeps_entries this 1 (Some (-5))) as (H1 & _).
  destruct (sort_keeps_entries this 2 None) as (_ & _ & H2 & _).
  split; [apply H1; unfold this; simpl; lia |].
  split; [apply H2; unfold this; simpl; lia | reflexivity].
Defined.


(** ** Names, saving and moving *)

Lemma name_of_cases (w : Quest.World) (v : Value) :
  (exists s, v = VStr s /\ s <> "" /\ Quest.name_of w v = VStr s) \/
  Quest.name_of w v = VStr (Quest.localize w "ForienQuestLog.NewQuest").
Proof.
  destruct v as [| | | |s| |]; try (now right).
  destruct s as [|a s]; [now right |].
  left. exists (String a s). repeat split. discriminate.
Qed.

Lemma name_of_again (w : Quest.World) (v : Value) :
  Quest.name_of w (Quest.name_of w v) = Quest.name_of w v.
Proof.
  destruct (name_of_cases w v) as [(s & -> & Hs & H) | H].
  - now rewrite H.
  - rewrite H. simpl.
    now destruct (Quest.localize w "ForienQuestLog.NewQuest").
Qed.

(** The name setter always stores a string: the value given when that is
    a non-empty string, the localized default label otherwise.  A quest
    named through the setter is saved under exactly that name. *)
Theorem name_setter_string (w : Quest.World) (value : Value)
    (this : Quest.t) :
  let q := Quest.set_name w value this in
  (exists s : string, Quest._name q = VStr s) /\
  (forall s : string, value = VStr s -> s <> "" -> Quest._name q = VStr s) /\
  ((forall s : string, value = VStr s -> s = "") ->
   Quest._name q = VStr (Quest.localize w "ForienQuestLog.NewQuest")) /\
  (forall (k : string) (e : Quest.Entry),
     Quest._id this = Some k -> Quest.journal w !! k = Some e ->
     Quest.canUpdate e = true ->
     Quest.e_name <$> Quest.journal (snd (Quest.save q w)) !! k
     = Some (Quest._name q)).
Proof.
  intros q. subst q. cbn [Quest._name Quest.set_name].
  split; [| split; [| split]].
  - destruct (name_of_cases w value) as [(s & _ & _ & H) | H];
      rewrite H; eauto.
  - intros s -> Hs. destruct s; [contradiction | reflexivity].
  - intros H. destruct (name_of_cases w value) as [(s & Hv & Hs & _) | H'];
      [now specialize (H s Hv) | exact H'].
  - intros k e Hid He Hc. unfold Quest.save.
    cbn [Quest._id Quest.set_name Quest._name]. rewrite Hid, He, Hc.
    cbn [negb snd Quest.journal]. rewrite lookup_insert_eq. cbn.
    f_equal. apply (name_of_again w value).
Qed.

Lemma name_setter_string_witness :
  let this := Quest.mk (Some "q1") (VStr "Quest") VNull (VStr "active")
                (VStr "") (VStr "") (VStr "actor") (VStr "actor")
                (VStr "center") (VStr "") (VStr "center") None []
                [] [] (Some "q1") in
  let w := Quest.mk_world {[ "q1" := Quest.mk_entry true (VStr "x") None ]}
                          ∅ (fun _ => "New Quest") [] in
  Quest._name (Quest.set_name w (VStr "") this) = VStr "New Quest" /\
  Quest.e_name
    <$> Quest.journal (snd (Quest.save (Quest.set_name w (VNum 3) this) w))
          !! "q1"
  = Some (VStr "New Quest").
Proof.
  intros this w.
  destruct (name_setter_string w (VStr "") this) as (_ & _ & Hd & _).
  destruct (name_setter_string w (VNum 3) this) as (_ & _ & _ & Hs).
  split.
  - apply Hd. intros s H. now inversion H.
  - now rewrite (Hs "q1" (Quest.mk_entry true (VStr "x") None)).
Defined.

(** Saving a second time stores what the first save stored and returns the
    same value; a save leaves every other journal entry, the permission on
    the quest's own entry and all quests of the index as they were. *)
Theorem save_again (this : Quest.t) (w : Quest.World) :
  let w1 := snd (Quest.save this w) in
  fst (Quest.save this w1) = fst (Quest.save this w) /\
  Quest.journal (snd (Quest.save this w1)) = Quest.journal w1 /\
  Quest.index w1 = Quest.index w /\
  (forall k : string, Quest._id this <> Some k ->
     Quest.journal w1 !! k = Quest.journal w !! k) /\
  (forall k : string,
     Quest.canUpdate <$> Quest.journal w1 !! k
     = Quest.canUpdate <$> Quest.journal w !! k).
Proof.
  intros w1. subst w1. unfold Quest.save.
  destruct (Quest._id this) as [k|]; [| repeat split].
  destruct (Quest.journal w !! k) as [e|] eqn:He.
  2:{ cbn. rewrite He. repeat split. }
  destruct (Quest.canUpdate e) eqn:Hc; cbn.
  2:{ rewrite He, Hc. repeat split. }
  rewrite lookup_insert_eq. cbn.
  split; [reflexivity |]. split; [apply insert_insert_eq |].
  split; [reflexivity |]. split.
  - intros k' Hk. rewrite lookup_insert_ne; [reflexivity | congruence].
  - intros k'. rewrite lookup_insert. case_decide; [| reflexivity].
    subst k'. rewrite He. cbn. now rewrite Hc.
Qed.

(** [move(target)] does nothing and resolves to [undefined] for a quest
    without entry.  With an entry it sets [status] to [target] and nothing
    else in the quest, resolves to the identifier, and stores the JSON of
    the moved quest in that entry whether or not the user may update it,
    keeping the entry's name and every other entry. *)
Theorem move_sets_status (this : Quest.t) (target : Value)
    (w : Quest.World) :
  (Quest.entry this = None ->
   Quest.move this target w = (VUndefined, this, w)) /\
  (forall k : string,
     Quest.entry this = Some k ->
     let '(v, q, w') := Quest.move this target w in
     v = Quest.id_value (Quest._id this) /\
     q = Quest.set_status target this /\
     Quest.calls w' = Quest.calls w ++ [Quest.EntryUpdate k] /\
     Quest.index w' = Quest.index w /\
     (forall e : Quest.Entry,
        Quest.journal w !! k = Some e ->
        Quest.journal w' !! k
        = Some (Quest.mk_entry (Quest.canUpdate e) (Quest.e_name e)
                  (Some (Quest.toJSON (Quest.set_status target this))))) /\
     (forall k' : string, k' <> k ->
        Quest.journal w' !! k' = Quest.journal w !! k')).
Proof.
  unfold Quest.move. split.
  - intros ->. reflexivity.
  - intros k ->. cbn. repeat split.
    + intros e He. now rewrite lookup_alter_eq, He.
    + intros k' Hk. now rewrite lookup_alter_ne.
Qed.

Lemma move_sets_status_witness :
  let this := Quest.mk (Some "q1") (VStr "Quest") VNull (VStr "active")
                (VStr "") (VStr "") (VStr "actor") (VStr "actor")
                (VStr "center") (VStr "") (VStr "center") None []
                [] [] (Some "q1") in
  let w := Quest.mk_world {[ "q1" := Quest.mk_entry false (VStr "x") None ]}
                          ∅ (fun key => key) [] in
  fst (fst (Quest.move this (VStr "completed") w)) = VStr "q1" /\
  fst (Quest.save this w) = VUndefined.
Proof.
  intros this w.
  destruct (move_sets_status this (VStr "completed") w) as (_ & H).
  specialize (H "q1" eq_refl).
  destruct (Quest.move this (VStr "completed") w) as [[v q] w'].
  destruct H as (Hv & _). split; [exact Hv | reflexivity].
Defined.

(** ** Quest.initData *)

Lemma map_new_built {A} (new : Value -> Result A) (items : list Value) :
  (forall x, x ∈ items -> exists a, new x = Ok a) ->
  exists built : array A,
    Quest.map_new new items = Ok built /\ length built = length items /\
    Forall (fun slot => slot <> None) built.
Proof.
  induction items as [|x rest IH]; intros H.
  - exists []. repeat split. constructor.
  - destruct (H x) as [a Ha]; [now left |].
    destruct IH as (built & Hb & Hl & Hs);
      [intros y Hy; apply H; now right |].
    exists (Some a :: built). cbn. rewrite Ha. cbn. rewrite Hb. cbn.
    repeat split; [now rewrite Hl | constructor; [discriminate | exact Hs]].
Qed.

Lemma map_new_null {A} (new : Value -> Result A) (items : list Value) :
  new VNull = Throw TypeError ->
  (forall x, x <> VNull -> exists a, new x = Ok a) ->
  VNull ∈ items -> Quest.map_new new items = Throw TypeError.
Proof.
  intros Hnull Hok. induction items as [|x rest IH]; intros Hin.
  - now apply elem_of_nil in Hin.
  - cbn. destruct x; try (now rewrite Hnull);
      (apply elem_of_cons in Hin as [Hin | Hin]; [discriminate Hin |]);
      match goal with
      | |- context [new ?v] =>
          destruct (Hok v) as [a Ha]; [discriminate |]; rewrite Ha
      end;
      cbn; now rewrite (IH Hin).
Qed.

Lemma null_among (items : list Value) : VNull ∈ items \/ VNull ∉ items.
Proof.
  induction items as [|x rest [IH | IH]].
  - right. apply not_elem_of_nil.
  - left. now right.
  - destruct x; try (right; apply not_elem_of_cons; split;
                     [discriminate | exact IH]).
    left. now left.
Qed.

Lemma Task_new_ok (x : Value) : x <> VNull -> exists a, Task.new x = Ok a.
Proof.
  intros H. destruct (Task_new_total x H) as (? & ? & ? & ? & _ & _ & _ & _ & E).
  eauto.
Qed.

Lemma Reward_new_ok (x : Value) :
  x <> VNull -> exists a, Reward.new x = Ok a.
Proof.
  intros H. destruct (Reward_new_total x H) as (? & ? & ? & _ & _ & _ & _ & E).
  eauto.
Qed.

Lemma get_defined (data : Value) :
  data <> VNull -> data <> VUndefined ->
  forall k, exists x, get data k = Ok x.
Proof.
  intros H1 H2 k. destruct data; try contradiction; eexists; reflexivity.
Qed.

Ltac read_property Hg k :=
  let x := fresh "x" in
  let H := fresh "H" in
  destruct (Hg k) as [x H]; rewrite H; cbn [bind].

(** [initData] on anything but [null] and [undefined] throws exactly when
    the record's [tasks] or [rewards] array holds a [null] (a TypeError
    from the constructor); otherwise it builds one task per element of
    [tasks] and one reward per element of [rewards] (none for a value that
    is not an array), and a name that is a string. *)
Theorem initData_outcome (w : Quest.World) (data : Value) :
  data <> VNull -> data <> VUndefined ->
  exists tv rv : Value,
    get data "tasks" = Ok tv /\ get data "rewards" = Ok rv /\
    (VNull ∈ items_of tv \/ VNull ∈ items_of rv ->
     Quest.initData w data = Throw TypeError) /\
    (VNull ∉ items_of tv -> VNull ∉ items_of rv ->
     exists fs : Quest.fields,
       Quest.initData w data = Ok fs /\
       length (Quest.f_tasks fs) = length (items_of tv) /\
       length (Quest.f_rewards fs) = length (items_of rv) /\
       Forall (fun slot => slot <> None) (Quest.f_tasks fs) /\
       Forall (fun slot => slot <> None) (Quest.f_rewards fs) /\
       exists s : string, Quest.f_name fs = VStr s).
Proof.
  intros Hn Hu. pose proof (get_defined data Hn Hu) as Hg.
  destruct (Hg "tasks") as [tv Htv], (Hg "rewards") as [rv Hrv].
  exists tv, rv. split; [exact Htv |]. split; [exact Hrv |].
  unfold Quest.initData.
  read_property Hg "giver". read_property Hg "name".
  read_property Hg "status". read_property Hg "description".
  read_property Hg "gmnotes". read_property Hg "image".
  read_property Hg "giverName". read_property Hg "giverImgPos".
  read_property Hg "splash". read_property Hg "splashPos".
  read_property Hg "parent". read_property Hg "subquests".
  rewrite Htv. cbn [bind].
  replace (match tv with
           | VArr items => Quest.map_new Task.new items
           | _ => Ok []
           end) with (Quest.map_new Task.new (items_of tv))
    by now destruct tv.
  assert (Hrw : forall k : array Reward.t -> Result Quest.fields,
            bind match rv with
                 | VArr items => Quest.map_new Reward.new items
                 | _ => Ok []
                 end k
            = bind (Quest.map_new Reward.new (items_of rv)) k)
    by (intros k; now destruct rv).
  pose proof (null_among (items_of tv)) as Ht.
  split.
  - intros [Hin | Hin].
    + now rewrite (map_new_null Task.new) by
        (first [reflexivity | apply Task_new_ok | exact Hin]).
    + destruct Ht as [Hin' | Hout].
      * now rewrite (map_new_null Task.new) by
          (first [reflexivity | apply Task_new_ok | exact Hin']).
      * destruct (map_new_built Task.new (items_of tv))
          as (ts & -> & _); [intros y Hy; apply Task_new_ok; congruence |].
        cbn [bind]. rewrite Hrv. cbn [bind]. rewrite Hrw.
        now rewrite (map_new_null Reward.new) by
          (first [reflexivity | apply Reward_new_ok | exact Hin]).
  - intros Hts Hrs.
    destruct (map_new_built Task.new (items_of tv))
      as (ts & -> & Hlt & Hst); [intros y Hy; apply Task_new_ok; congruence |].
    cbn [bind]. rewrite Hrv. cbn [bind]. rewrite Hrw.
    destruct (map_new_built Reward.new (items_of rv))
      as (rs & -> & Hlr & Hsr);
      [intros y Hy; apply Reward_new_ok; congruence |].
    cbn [bind]. eexists. split; [reflexivity |].
    cbn [Quest.f_tasks Quest.f_rewards Quest.f_name].
    repeat (split; [assumption |]).
    match goal with
    | |- exists s, Quest.name_of w ?v = _ =>
        destruct (name_of_cases w v) as [(s & _ & _ & H') | H'];
          rewrite H'; eauto
    end.
Qed.

Lemma initData_outcome_witness :
  let w := Quest.mk_world ∅ ∅ (fun _ => "New Quest") [] in
  let data := VObj [("name", VStr ""); ("tasks", VArr [VObj []; VNum 1])] in
  exists fs : Quest.fields,
    Quest.initData w data = Ok fs /\
    length (Quest.f_tasks fs) = 2%nat /\
    Quest.f_name fs = VStr "New Quest".
Proof.
  intros w data.
  destruct (initData_outcome w data) as (tv & rv & Ht & Hr & _ & Hok);
    [discriminate | discriminate |].
  inversion Ht; subst tv. inversion Hr; subst rv.
  destruct Hok as (fs & Hfs & Hl & _).
  - cbn. rewrite !elem_of_cons, elem_of_nil.
    intros [H | [H | []]]; discriminate H.
  - cbn. apply not_elem_of_nil.
  - exists fs. split; [exact Hfs |]. split; [exact Hl |].
    assert (E : Quest.initData w data
                = Ok (Quest.mk_fields VNull (VStr "New Quest") (VStr "hidden")
                        (VStr "") (VStr "") (VStr "actor") (VStr "actor")
                        (VStr "center") (VStr "") (VStr "center") VNull
                        (VArr [])
                        [Some (Task.mk VNull (VBool false) (VBool false)
                                       (VBool false));
                         Some (Task.mk VNull (VBool false) (VBool false)
                                       (VBool false))] []))
      by reflexivity.
    rewrite E in Hfs. now inversion Hfs.
Defined.

Lemma map_new_reload (xs : list Task.t) :
  (forall x, x ∈ xs -> Task.new (Task.toJSON x) = Ok x) ->
  Quest.map_new Task.new (Task.toJSON <$> xs) = Ok (Some <$> xs).
Proof.
  induction xs as [|x rest IH]; intros H; [reflexivity |].
  rewrite !fmap_cons. cbn [Quest.map_new].
  rewrite (H x) by now left. cbn [bind].
  rewrite IH by (intros y Hy; apply H; now right). reflexivity.
Qed.

(** Reloading: a record whose [tasks] are the [toJSON()] payloads of tasks
    that were built from plain JSON data is initialised with exactly those
    tasks, in order. *)
Theorem initData_reloads_tasks (w : Quest.World)
    (fields : list (string * Value)) (xs : list Task.t) :
  (forall x, x ∈ xs ->
     exists d, json_data d = true /\ Task.new d = Ok x) ->
  assoc "tasks" fields = VArr (Task.toJSON <$> xs) ->
  VNull ∉ items_of (assoc "rewards" fields) ->
  exists fs : Quest.fields,
    Quest.initData w (VObj fields) = Ok fs /\
    Quest.f_tasks fs = Some <$> xs.
Proof.
  intros Hxs Htasks Hrew.
  assert (Hre : Quest.map_new Task.new (Task.toJSON <$> xs)
                = Ok (Some <$> xs)).
  { apply map_new_reload. intros x Hx. destruct (Hxs x Hx) as (d & Hd & Hn).
    now apply (Task_reload d x). }
  destruct (map_new_built Reward.new (items_of (assoc "rewards" fields)))
    as (rs & Hrs & _); [intros y Hy; apply Reward_new_ok; congruence |].
  unfold Quest.initData. cbn [get bind]. rewrite Htasks, Hre. cbn [bind].
  replace (match assoc "rewards" fields with
           | VArr items => Quest.map_new Reward.new items
           | _ => Ok []
           end)
    with (Quest.map_new Reward.new (items_of (assoc "rewards" fields)))
    by now destruct (assoc "rewards" fields).
  rewrite Hrs. cbn [bind]. eexists. split; reflexivity.
Qed.

Lemma initData_reloads_tasks_witness :
  let w := Quest.mk_world ∅ ∅ (fun _ => "New Quest") [] in
  let x := Task.mk (VStr "Find the amulet") (VBool true) (VBool false)
                   (VBool false) in
  exists fs : Quest.fields,
    Quest.initData w (VObj [("tasks", VArr [Task.toJSON x])]) = Ok fs /\
    Quest.f_tasks fs = [Some x].
Proof.
  intros w x.
  apply (initData_reloads_tasks w [("tasks", VArr [Task.toJSON x])] [x]).
  - intros y Hy. apply list_elem_of_singleton in Hy. subst y.
    exists (VObj [("name", VStr "Find the amulet");
                  ("completed", VBool true)]).
    split; reflexivity.
  - reflexivity.
  - cbn. apply not_elem_of_nil.
Defined.

(** ** Quest.delete in general *)

Section DeleteGeneral.

Import Quest.

Implicit Types (w : World) (i : gmap string t) (q : t).

Lemma same_but_links_id q q' : same_but_links q q' -> _id q = _id q'.
Proof. intros H. apply (f_equal _id) in H. exact H. Qed.

Lemma index_same_refl i : index_same_but_links i i.
Proof. intros k. destruct (i !! k); now constructor. Qed.

Lemma index_same_alter i i' (f : t -> t) k :
  (forall q, same_but_links q (f q)) ->
  index_same_but_links i i' -> index_same_but_links i (alter f k i').
Proof.
  intros Hf H k'. specialize (H k'). rewrite lookup_alter. case_decide.
  - subst k'. destruct H as [q q' H|]; constructor.
    unfold same_but_links in *. rewrite H. apply Hf.
  - exact H.
Qed.

Lemma links_set_parent p q : same_but_links q (set_parent p q).
Proof. reflexivity. Qed.
Lemma links_addSubquest x q : same_but_links q (addSubquest x q).
Proof. reflexivity. Qed.
Lemma links_removeSubquest x q : same_but_links q (removeSubquest x q).
Proof. reflexivity. Qed.

Lemma Fetch_quest_same w w' c :
  index_same_but_links (index w) (index w') ->
  Fetch_quest w' c = Fetch_quest w c.
Proof.
  intros H. destruct c as [k|]; [| reflexivity]. unfold Fetch_quest.
  now destruct (H k).
Qed.

Lemma id_at_same w w' k :
  index_same_but_links (index w) (index w') -> id_at w' k = id_at w k.
Proof.
  intros H. unfold id_at. destruct (H k) as [q q' Hq|]; [| reflexivity].
  symmetry. now apply same_but_links_id.
Qed.

(** One turn of the loop keeps the index up to links and records the
    identifier of the child when the index resolves it. *)
Lemma reparent_step w0 w saved pq pid c :
  index_same_but_links (index w0) (index w) ->
  index_same_but_links (index w0)
    (index (fst (reparent pq pid (w, saved) c))) /\
  snd (reparent pq pid (w, saved) c)
  = saved ++ (id_at w0 <$> option_list (Fetch_quest w0 c)).
Proof.
  intros H. unfold reparent. rewrite (Fetch_quest_same w0 w c H).
  destruct (Fetch_quest w0 c) as [k|]; cbn [fst snd option_list fmap];
    [| split; [exact H | now rewrite app_nil_r]].
  assert (H1 : index_same_but_links (index w0)
                 (index (save_at k (modify k (set_parent pid) w)))).
  { rewrite index_save_at. cbn.
    apply index_same_alter; [apply links_set_parent | exact H]. }
  rewrite (id_at_same w0 _ k H1). split; [| reflexivity].
  destruct pq as [p|]; [| exact H1].
  cbn. apply index_same_alter; [apply links_addSubquest | exact H1].
Qed.

Lemma reparent_fold w0 pq pid (l : list (option string)) :
  forall w saved,
    index_same_but_links (index w0) (index w) ->
    index_same_but_links (index w0)
      (index (fst (fold_left (reparent pq pid) l (w, saved)))) /\
    snd (fold_left (reparent pq pid) l (w, saved))
    = saved ++ (id_at w0 <$> omap (Fetch_quest w0) l).
Proof.
  induction l as [|c l IH]; intros w saved H.
  - split; [exact H | now rewrite app_nil_r].
  - cbn [fold_left].
    destruct (reparent_step w0 w saved pq pid c H) as [H1 H2].
    destruct (reparent pq pid (w, saved) c) as [w1 saved1].
    cbn [fst snd] in H1, H2. destruct (IH w1 saved1 H1) as [H3 H4].
    split; [exact H3 |]. rewrite H4, H2, <- app_assoc. f_equal.
    cbn [omap list_omap]. fold (omap (Fetch_quest w0) l).
    now destruct (Fetch_quest w0 c).
Qed.

Lemma delete_shape (A : t) w :
  exists w1 saved,
    fold_left (reparent (Fetch_quest w (parent A))
                 match Fetch_quest w (parent A) with
                 | Some p => id_at w p
                 | None => None
                 end)
      (subquests A)
      (match Fetch_quest w (parent A) with
       | Some p => modify p (removeSubquest (_id A)) w
       | None => w
       end, []) = (w1, saved) /\
    index_same_but_links (index w) (index w1) /\
    saved = id_at w <$> omap (Fetch_quest w) (subquests A) /\
    index (snd (delete A w)) = index w1 /\
    savedIDs (fst (delete A w))
    = saved ++ (id_at w <$> option_list (Fetch_quest w (parent A))) /\
    deleteID (fst (delete A w)) = _id A /\
    journal (snd (delete A w))
    = match entry A with
      | Some k =>
          base.delete k
            (journal (match Fetch_quest w (parent A) with
                      | Some p => save_at p w1
                      | None => w1
                      end))
      | None =>
          journal (match Fetch_quest w (parent A) with
                   | Some p => save_at p w1
                   | None => w1
                   end)
      end.
Proof.
  set (pq := Fetch_quest w (parent A)).
  set (pid := match pq with Some p => id_at w p | None => None end).
  set (wr := match pq with
             | Some p => modify p (removeSubquest (_id A)) w
             | None => w
             end).
  assert (Hr : index_same_but_links (index w) (index wr)).
  { subst wr. destruct pq as [p|]; [| apply index_same_refl].
    cbn. apply index_same_alter;
      [apply links_removeSubquest | apply index_same_refl]. }
  destruct (reparent_fold w pq pid (subquests A) wr [] Hr) as [H1 H2].
  unfold delete. fold pq. fold pid. fold wr.
  destruct (fold_left (reparent pq pid) (subquests A) (wr, []))
    as [w1 saved] eqn:E.
  cbn [fst snd] in H1, H2. exists w1, saved.
  split; [reflexivity |]. split; [exact H1 |]. split; [exact H2 |].
  destruct pq as [p|], (entry A) as [k|]; cbn;
    rewrite ?index_save_at, ?(id_at_same w w1 _ H1), ?app_nil_r;
    repeat split.
Qed.

End DeleteGeneral.

(** [delete()] neither adds quests to the index nor takes any away, and
    changes nothing in a quest but its [parent] and [subquests]: every
    identifier, task and reward of every indexed quest is as before. *)
Theorem delete_only_relinks (A : Quest.t) (w : Quest.World) :
  index_same_but_links (Quest.index w)
                       (Quest.index (snd (Quest.delete A w))) /\
  (forall k : string,
     is_Some (Quest.index (snd (Quest.delete A w)) !! k)
     <-> is_Some (Quest.index w !! k)) /\
  (forall (k : string) (q q' : Quest.t),
     Quest.index w !! k = Some q ->
     Quest.index (snd (Quest.delete A w)) !! k = Some q' ->
     Quest._id q' = Quest._id q /\ Quest.tasks q' = Quest.tasks q /\
     Quest.rewards q' = Quest.rewards q /\
     Quest._name q' = Quest._name q /\ Quest.status q' = Quest.status q /\
     Quest.entry q' = Quest.entry q).
Proof.
  destruct (delete_shape A w) as (w1 & saved & _ & H & _ & Hi & _).
  rewrite Hi. split; [exact H |]. split.
  - intros k. destruct (H k); split; intros [? ?]; eauto; discriminate.
  - intros k q q' Hq Hq'. specialize (H k). rewrite Hq, Hq' in H.
    inversion H as [? ? Hs|]; subst. unfold same_but_links in Hs.
    destruct q, q'. cbn in Hs. inversion Hs. repeat split.
Qed.



Section DeleteChildren.

Import Quest.

Implicit Types (w : World) (q : t).





Lemma reparent_fold_unresolved pq pid (l : list (option string)) :
  forall w saved,
    omap (Fetch_quest w) l = [] ->
    fold_left (reparent pq pid) l (w, saved) = (w, saved).
Proof.
  induction l as [|c l IH]; intros w saved H; [reflexivity |].
  cbn [omap list_omap] in H. fold (omap (Fetch_quest w) l) in H.
  cbn [fold_left]. unfold reparent at 2.
  destruct (Fetch_quest w c); [discriminate H | now apply IH].
Qed.

End DeleteChildren.



(** A quest whose parent and subquests the index does not resolve is
    deleted without touching any other quest or saving anything: the only
    effect is the removal of its own journal entry, when it holds one. *)
Theorem delete_unlinked (A : Quest.t) (w : Quest.World) :
  Quest.Fetch_quest w (Quest.parent A) = None ->
  omap (Quest.Fetch_quest w) (Quest.subquests A) = [] ->
  Quest.delete A w
  = ({| Quest.deleteID := Quest._id A; Quest.savedIDs := [] |},
     match Quest.entry A with
     | Some k =>
         Quest.mk_world (base.delete k (Quest.journal w)) (Quest.index w)
                        (Quest.localize w)
                        (Quest.calls w ++ [Quest.EntryDelete k])
     | None => w
     end).
Proof.
  intros Hp Hc. unfold Quest.delete. rewrite Hp.
  now rewrite (reparent_fold_unresolved None None _ w [] Hc).
Qed.

Lemma delete_unlinked_witness :
  let A := Quest.mk (Some "A") (VStr "A") VNull (VStr "active") (VStr "")
             (VStr "") (VStr "actor") (VStr "actor") (VStr "center")
             (VStr "") (VStr "center") (Some "gone") [Some "lost"] [] []
             (Some "A") in
  let w := Quest.mk_world {[ "A" := Quest.mk_entry true (VStr "A") None ]}
                          ∅ (fun key => key) [] in
  Quest.savedIDs (fst (Quest.delete A w)) = [] /\
  Quest.calls (snd (Quest.delete A w)) = [Quest.EntryDelete "A"].
Proof.
  intros A w.
  rewrite (delete_unlinked A w); [| reflexivity | reflexivity].
  split; reflexivity.
Defined.



(** ** QuestFolder *)

Lemma QuestFolder_get_Some (folders : list QuestFolder.Folder)
    (f : QuestFolder.Folder) :
  QuestFolder.get folders = Some f ->
  f ∈ folders /\ QuestFolder.name f = QuestFolder.s_QUEST_DIR_NAME.
Proof.
  intros H. apply find_some in H as [Hin Hn].
  split; [now apply list_elem_of_In |]. now apply String.eqb_eq.
Qed.

(** [folderExists()] holds exactly when some folder of the directory has
    the reserved name.  [initializeJournals()] leaves a directory that has
    one as it is and otherwise adds one folder of that name at the top
    level, so that the folder exists afterwards and a second call changes
    nothing. *)
Theorem initializeJournals_once (folders : list QuestFolder.Folder) :
  (QuestFolder.folderExists folders = true
   <-> exists f, f ∈ folders /\
                 QuestFolder.name f = QuestFolder.s_QUEST_DIR_NAME) /\
  (QuestFolder.folderExists folders = true ->
   QuestFolder.initializeJournals folders = folders) /\
  (QuestFolder.folderExists folders = false ->
   QuestFolder.initializeJournals folders
   = folders ++ [QuestFolder.mk_folder QuestFolder.s_QUEST_DIR_NAME
                   "JournalEntry" None]) /\
  QuestFolder.folderExists (QuestFolder.initializeJournals folders) = true /\
  QuestFolder.initializeJournals (QuestFolder.initializeJournals folders)
    = QuestFolder.initializeJournals folders.
Proof.
  assert (Hiff : forall fs,
            QuestFolder.folderExists fs = true
            <-> exists f, f ∈ fs /\
                  QuestFolder.name f = QuestFolder.s_QUEST_DIR_NAME).
  { intros fs. unfold QuestFolder.folderExists. split.
    - destruct (QuestFolder.get fs) as [f|] eqn:E; [| discriminate].
      intros _. exists f. now apply QuestFolder_get_Some.
    - intros (f & Hin & Hn).
      destruct (QuestFolder.get fs) eqn:E; [reflexivity |].
      unfold QuestFolder.get in E.
      apply list_elem_of_In in Hin.
      apply (find_none _ _ E f) in Hin.
      apply String.eqb_eq in Hn. congruence. }
  assert (Hex : QuestFolder.folderExists
                  (QuestFolder.initializeJournals folders) = true).
  { unfold QuestFolder.initializeJournals.
    destruct (QuestFolder.folderExists folders) eqn:E; [exact E |].
    cbn [negb]. apply Hiff. eexists. split.
    - apply elem_of_app. right. now left.
    - reflexivity. }
  split; [apply Hiff |]. split; [| split; [| split]].
  - intros H. unfold QuestFolder.initializeJournals. now rewrite H.
  - intros H. unfold QuestFolder.initializeJournals. now rewrite H.
  - exact Hex.
  - unfold QuestFolder.initializeJournals at 1. now rewrite Hex.
Qed.

Lemma initializeJournals_once_witness :
  let notes := QuestFolder.mk_folder "Notes" "JournalEntry" None in
  QuestFolder.initializeJournals [notes]
  = [notes; QuestFolder.mk_folder "_fql_quests" "JournalEntry" None].
Proof.
  intros notes.
  destruct (initializeJournals_once [notes]) as (_ & _ & H & _).
  apply H. reflexivity.
Defined.

(** ** The tracker's session state *)

(** A click on the header of a quest that has objectives flips what the
    tracker shows for it: the tasks and subquests are listed after the
    click exactly when they were not listed before.  The click re-renders
    and touches no other key of the session storage; without an entry, or
    for a quest without objectives, nothing is stored or rendered. *)
Theorem click_flips_objectives (env : QuestTracker.Env)
    (entry : QuestTracker.QuestEntry) :
  let q := QuestTracker.enrich entry in
  let key := QuestTracker.trackerFolderState env +:+ QuestTracker.id q in
  let click := QuestTracker.handleQuestClick env (QuestTracker.id q)
                 (Some entry) in
  let listed (e : QuestTracker.Env) :=
    QuestTracker.v_tasks (QuestTracker.view_of e entry)
      = QuestTracker.data_tasks q /\
    QuestTracker.v_subquests (QuestTracker.view_of e entry)
      = QuestTracker.data_subquest q in
  let folded (e : QuestTracker.Env) :=
    QuestTracker.v_tasks (QuestTracker.view_of e entry) = VArr [] /\
    QuestTracker.v_subquests (QuestTracker.view_of e entry) = VArr [] in
  (truthy (QuestTracker.hasObjectives q) = true ->
   snd click = true /\
   (QuestTracker.sessionStorage env !! key = Some "false" ->
    listed env /\ folded (fst click)) /\
   (QuestTracker.sessionStorage env !! key <> Some "false" ->
    folded env /\ listed (fst click)) /\
   (forall k : string, k <> key ->
      QuestTracker.sessionStorage (fst click) !! k
      = QuestTracker.sessionStorage env !! k)) /\
  (truthy (QuestTracker.hasObjectives q) = false -> click = (env, false)) /\
  (forall questId : string,
     QuestTracker.handleQuestClick env questId None = (env, false)).
Proof.
  intros q key click listed folded. subst click listed folded.
  unfold QuestTracker.handleQuestClick, QuestTracker.view_of.
  fold q. fold key.
  split; [| split; [intros ->; reflexivity | reflexivity]].
  intros ->. cbn [fst snd QuestTracker.sessionStorage
                  QuestTracker.trackerFolderState].
  fold key. split; [reflexivity |]. split; [| split].
  - intros H. rewrite H, lookup_insert_eq. cbn. repeat split.
  - intros H. rewrite lookup_insert_eq.
    destruct (QuestTracker.sessionStorage env !! key) as [s|] eqn:E;
      [| cbn; repeat split].
    destruct (String.eqb_spec s "false") as [-> | Hs];
      [now contradiction H | cbn; repeat split].
  - intros k Hk. now rewrite lookup_insert_ne.
Qed.

Lemma click_flips_objectives_witness :
  let q := QuestTracker.mk_enrich "q1" VNull (VStr "Quest") (VBool false)
             (VBool false) (VBool false) (VArr []) (VBool true)
             (VArr [VStr "task"]) (VArr []) in
  let entry := QuestTracker.mk_entry q true in
  let env := QuestTracker.mk_env true false ∅ "folderstate-" [] in
  QuestTracker.v_tasks (QuestTracker.view_of env entry) = VArr [] /\
  QuestTracker.v_tasks
    (QuestTracker.view_of
       (fst (QuestTracker.handleQuestClick env "q1" (Some entry))) entry)
  = VArr [VStr "task"].
Proof.
  intros q entry env.
  destruct (click_flips_objectives env entry) as (H & _).
  destruct H as (_ & _ & H & _); [reflexivity |].
  destruct H as [[Hf _] [Hl _]]; [discriminate |].
  split; [exact Hf | exact Hl].
Defined.

(** A click on the show-primary button flips the stored flag, so two
    clicks are back at the state shown at first, and leaves the other keys
    alone.  The icon it sets is the one [_getHeaderButtons] gives for the
    new state; the tooltip it sets is the other one of the two that
    [_getHeaderButtons] chooses between. *)
Theorem clickShowPrimary_flips (storage : gmap string string)
    (key : string) :
  let '(storage', icon, title) :=
    QuestTracker.clickShowPrimary storage key in
  QuestTracker.showPrimary storage' key
    = negb (QuestTracker.showPrimary storage key) /\
  QuestTracker.showPrimary
    (fst (fst (QuestTracker.clickShowPrimary storage' key))) key
    = QuestTracker.showPrimary storage key /\
  (forall k : string, k <> key -> storage' !! k = storage !! k) /\
  icon = QuestTracker.b_icon (QuestTracker.primaryButton storage' key) /\
  title <> QuestTracker.b_title (QuestTracker.primaryButton storage' key) /\
  title
  = QuestTracker.b_title (QuestTracker.primaryButton storage key).
Proof.
  unfold QuestTracker.clickShowPrimary, QuestTracker.primaryButton.
  assert (Hs : forall (st : gmap string string) (b : bool),
            QuestTracker.showPrimary
              (<[key := if b then "true" else "false"]> st) key = b).
  { intros st b. unfold QuestTracker.showPrimary.
    rewrite lookup_insert_eq. now destruct b. }
  cbn [QuestTracker.b_icon QuestTracker.b_title fst].
  rewrite !Hs.
  split; [reflexivity |]. split; [apply negb_involutive |].
  split; [intros k Hk; now rewrite lookup_insert_ne |].
  destruct (QuestTracker.showPrimary storage key); cbn;
    repeat split; discriminate.
Qed.



(** ** QuestTracker.setPosition *)




(** ** Moving back, toggling back *)

Lemma reinsert_removed {A} (arr : list A) (i : nat) (e : A) :
  arr !! i = Some e ->
  take i (base.delete i arr) ++ e :: drop i (base.delete i arr) = arr.
Proof.
  intros He.
  assert (Hlt : (i < length arr)%nat) by (eapply lookup_lt_Some; exact He).
  rewrite delete_take_drop.
  rewrite take_app_le by (rewrite length_take; lia).
  rewrite take_take, Nat.min_id.
  rewrite drop_app_ge by (rewrite length_take; lia).
  rewrite length_take, Nat.min_l, Nat.sub_diag by lia. cbn [drop].
  now apply take_drop_middle.
Qed.

Lemma remove_inserted {A} (rest : list A) (k : nat) (e : A) :
  (k <= length rest)%nat ->
  (take k rest ++ e :: drop k rest) !! k = Some e /\
  base.delete k (take k rest ++ e :: drop k rest) = rest.
Proof.
  intros Hk.
  assert (Hl : length (take k rest) = k) by (rewrite length_take; lia).
  split.
  - rewrite lookup_app_r by lia. now rewrite Hl, Nat.sub_diag.
  - rewrite delete_take_drop.
    rewrite take_app_le, take_take, Nat.min_id by lia.
    rewrite drop_app_ge by lia. rewrite Hl.
    replace (S k - k)%nat with 1%nat by lia. cbn [drop].
    now rewrite drop_0, take_drop.
Qed.

(** Dragging an entry to another position and back restores the
    sequence, and dropping it on its own position leaves the sequence as
    it is, provided neither position is the first: for positions [i] and
    [j] inside the sequence and greater than zero, [sortTasks(i, j)]
    followed by [sortTasks(j, i)] gives the tasks back, and so does
    [sortTasks(i, i)] (for rewards alike). *)
Theorem sort_there_and_back (this : Quest.t) (i j : Z) :
  (0 < i < Z.of_nat (length (Quest.tasks this)) ->
   0 < j < Z.of_nat (length (Quest.tasks this)) ->
   Quest.sortTasks (Quest.sortTasks this i (Some j)) j (Some i) = this /\
   Quest.sortTasks this i (Some i) = this) /\
  (0 < i < Z.of_nat (length (Quest.rewards this)) ->
   0 < j < Z.of_nat (length (Quest.rewards this)) ->
   Quest.sortRewards (Quest.sortRewards this i (Some j)) j (Some i) = this /\
   Quest.sortRewards this i (Some i) = this).
Proof.
  assert (M : forall A (arr : array A),
             0 < i < Z.of_nat (length arr) ->
             0 < j < Z.of_nat (length arr) ->
             sort_entries (sort_entries arr i (Some j)) j (Some i) = arr /\
             sort_entries arr i (Some i) = arr).
  { intros A arr Hi Hj.
    destruct (lookup_lt_is_Some_2 arr (Z.to_nat i)) as [e He]; [lia |].
    destruct (sort_entries_move arr i (Some j) e) as (Hl & _ & Hin & _);
      [lia | exact He |].
    destruct (sort_entries_move arr i (Some i) e) as (_ & _ & Hii & _);
      [lia | exact He |].
    set (rest := base.delete (Z.to_nat i) arr) in *.
    assert (Hlen : length rest = pred (length arr)) by exact Hl.
    destruct (Hin j eq_refl) as [E1 _]; [lia |].
    destruct (Hii i eq_refl) as [E2 _]; [lia |].
    split; [| rewrite E2; now apply reinsert_removed].
    rewrite E1.
    destruct (remove_inserted rest (Z.to_nat j) e) as [Hat Hdel]; [lia |].
    destruct (sort_entries_move
                (take (Z.to_nat j) rest ++ e :: drop (Z.to_nat j) rest)
                j (Some i) e) as (_ & _ & Hback & _); [lia | exact Hat |].
    rewrite Hdel in Hback.
    destruct (Hback i eq_refl) as [-> _]; [lia |].
    now apply reinsert_removed. }
  split; intros Hi Hj.
  - destruct (M _ (Quest.tasks this) Hi Hj) as [H1 H2].
    unfold Quest.sortTasks. cbn [Quest.tasks Quest.set_tasks].
    rewrite H1, H2. now destruct this.
  - destruct (M _ (Quest.rewards this) Hi Hj) as [H1 H2].
    unfold Quest.sortRewards. cbn [Quest.rewards Quest.set_rewards].
    rewrite H1, H2. now destruct this.
Qed.

Lemma sort_there_and_back_witness :
  let a := Some (Task.mk (VStr "a") (VBool false) (VBool false)
                         (VBool false)) in
  let b := Some (Task.mk (VStr "b") (VBool false) (VBool false)
                         (VBool false)) in
  let c := Some (Task.mk (VStr "c") (VBool false) (VBool false)
                         (VBool false)) in
  let this := Quest.mk (Some "q1") (VStr "Quest") VNull (VStr "active")
                (VStr "") (VStr "") (VStr "actor") (VStr "actor")
                (VStr "center") (VStr "") (VStr "center") None []
                [a; b; c] [] None in
  Quest.sortTasks (Quest.sortTasks this 1 (Some 2)) 2 (Some 1) = this /\
  Quest.tasks (Quest.sortTasks this 1 (Some 2)) = [a; c; b].
Proof.
  intros a b c this.
  destruct (sort_there_and_back this 1 2) as (H & _).
  destruct H as [H _]; [unfold this; simpl; lia ..|].
  split; [exact H | reflexivity].
Defined.

Lemma at_index_inserted {A} (arr : array A) (index : Z) (x y : A) :
  at_index arr index = Some x ->
  at_index (<[Z.to_nat index := Some y]> arr) index = Some y /\
  <[Z.to_nat index := Some x]> (<[Z.to_nat index := Some y]> arr) = arr.
Proof.
  intros H. apply at_index_Some in H as [Hi Hx].
  assert (Hlt : (Z.to_nat index < length arr)%nat)
    by (eapply lookup_lt_Some; exact Hx).
  split.
  - unfold at_index. destruct (index <? 0) eqn:E; [lia |].
    now rewrite list_lookup_insert_eq.
  - rewrite list_insert_insert_eq. now apply list_insert_id.
Qed.

(** Toggling the visibility of the same task (or reward) twice gives the
    quest back when the element's [hidden] is a boolean. *)
Theorem toggle_at_index_twice (this : Quest.t) (index : Z) :
  (forall (x : Task.t) (b : bool),
     at_index (Quest.tasks this) index = Some x ->
     Task.hidden x = VBool b ->
     Quest.toggleTask (Quest.toggleTask this index) index = this) /\
  (forall (r : Reward.t) (b : bool),
     at_index (Quest.rewards this) index = Some r ->
     Reward.hidden r = VBool b ->
     Quest.toggleReward (Quest.toggleReward this index) index = this).
Proof.
  split.
  - intros x b Hx Hb.
    destruct (at_index_inserted (Quest.tasks this) index x
                (fst (Task.toggleVisible x)) Hx) as [Hat Hback].
    unfold Quest.toggleTask at 2. rewrite Hx.
    unfold Quest.toggleTask. cbn [Quest.tasks Quest.set_tasks].
    rewrite Hat.
    replace (fst (Task.toggleVisible (fst (Task.toggleVisible x)))) with x.
    + rewrite Hback. now destruct this.
    + destruct x as [n c f h]. cbn in Hb. subst h.
      unfold Task.toggleVisible, js_not. cbn.
      now rewrite negb_involutive.
  - intros r b Hr Hb.
    destruct (at_index_inserted (Quest.rewards this) index r
                (fst (Reward.toggleVisible r)) Hr) as [Hat Hback].
    unfold Quest.toggleReward at 2. rewrite Hr.
    unfold Quest.toggleReward. cbn [Quest.rewards Quest.set_rewards].
    rewrite Hat.
    replace (fst (Reward.toggleVisible (fst (Reward.toggleVisible r))))
      with r.
    + rewrite Hback. now destruct this.
    + destruct r as [t d h]. cbn in Hb. subst h.
      unfold Reward.toggleVisible, js_not. cbn.
      now rewrite negb_involutive.
Qed.

Lemma toggle_at_index_twice_witness :
  let a := Task.mk (VStr "a") (VBool false) (VBool false) (VBool true) in
  let this := Quest.mk (Some "q1") (VStr "Quest") VNull (VStr "active")
                (VStr "") (VStr "") (VStr "actor") (VStr "actor")
                (VStr "center") (VStr "") (VStr "center") None []
                [Some a] [] None in
  Quest.toggleTask (Quest.toggleTask this 0) 0 = this.
Proof.
  intros a this.
  destruct (toggle_at_index_twice this 0) as (H & _).
  apply (H a true); reflexivity.
Defined.
